(** * cc_debug: the diagnostic layer of ccommon

    A shallow embedding of [src/cc_debug.c]: the level-filtered logger
    ([_log]), the canonical hex dump ([_log_hexdump]), the assertion
    reporter ([debug_assert]), the stack trace emitter
    ([debug_stacktrace]) and module setup ([debug_setup]).

    C [int]s are integers of [Z] with the 32-bit wrap-around written out,
    text is a list of characters, a local [char] array is a list of cells
    that are either indeterminate or hold a character, and every store
    into such an array is bounds-checked: a store outside the array is a
    [BufferOverrun] fault.  Process state (errno, the process-wide logger,
    what was handed to the log target and to stderr) is threaded through a
    small state-and-fault monad. *)

From Stdlib Require Import ZArith Ascii String DecimalString Lia.
From stdpp Require Import base tactics option list.

Open Scope Z_scope.

(** ** Text and C integers *)

Abbreviation text := (list ascii).

Definition txt (s : string) : text := list_ascii_of_string s.
Arguments txt s%_string.

Definition NUL : ascii := "000"%char.
Definition NL : ascii := "010"%char.

Definition INT_MAX : Z := 2147483647.
Definition INT_MIN : Z := -2147483648.

(** The value an [int] holds after an arithmetic result [z]. *)
Definition int_wrap (z : Z) : Z := (z + 2 ^ 31) mod 2 ^ 32 - 2 ^ 31.

(** An [int] read as [unsigned int], as the [%x] conversion does. *)
Definition uint_wrap (z : Z) : Z := z mod 2 ^ 32.

(** [strlen] *)
Definition strlen (s : text) : Z := Z.of_nat (length s).

(** ** printf conversions used by the module *)

Definition hex_digit (d : Z) : ascii :=
  nth (Z.to_nat d) (txt "0123456789abcdef") "?"%char.

(** The [w] low-order hexadecimal digits of [n], most significant first. *)
Fixpoint hex_digits (w : nat) (n : Z) : text :=
  match w with
  | O => []
  | S w' => hex_digits w' (n / 16) ++ [hex_digit (n mod 16)]
  end.

(** ["%08x"]: an [unsigned int] has at most eight hexadecimal digits, so
    the zero-padded field is always exactly eight wide. *)
Definition fmt_08x (off : Z) : text := hex_digits 8 (uint_wrap off).

(** ["%02x"] of an [unsigned char]. *)
Definition fmt_02x (c : ascii) : text := hex_digits 2 (Z.of_N (N_of_ascii c)).

(** ["%d"] *)
Definition fmt_d (n : Z) : text := txt (NilZero.string_of_int (Z.to_int n)).

(** ["%.*s"]: a negative precision counts as no precision. *)
Definition fmt_prec_s (prec : Z) (s : text) : text :=
  if prec <? 0 then s else take (Z.to_nat prec) s.

(** [isprint] in the "C" locale. *)
Definition isprint (c : ascii) : bool :=
  (32 <=? Z.of_N (N_of_ascii c)) && (Z.of_N (N_of_ascii c) <=? 126).

(** ** Constants of the module *)

Definition BACKTRACE_DEPTH : Z := 64.
Definition DEBUG_MODULE_NAME : text := txt "ccommon::debug".

Definition level_str : list text :=
  [ txt "ALWAYS"; txt "CRIT"; txt "ERROR"; txt "WARN";
    txt "INFO"; txt "DEBUG"; txt "VERB"; txt "VVERB" ].

(** ** Process state *)

(** A [struct logger *]: the log target, owned by [cc_log]. *)
Definition log_handle := nat.

Record debug_logger := {
  logger : option log_handle;   (* [None] is the NULL pointer *)
  level : Z
}.

(** The two handlers [debug_setup] installs. *)
Inductive sig_handler := _stacktrace | _logrotate.

Definition SIGSEGV : Z := 11.
Definition SIGTTIN : Z := 21.

Inductive rstatus_i := CC_OK | CC_ERROR.

Record world := {
  errno : Z;
  dlog : debug_logger;                   (* [default_logger], through [dlog] *)
  debug_init : bool;
  sig_handlers : list (Z * sig_handler); (* installed by [signal_override] *)
  destroyed : list log_handle;           (* targets given to [log_destroy] *)
  log_out : list (log_handle * text);    (* one entry per [_log_write] call *)
  stderr_out : list text                 (* one entry per [log_stderr] call *)
}.

Definition set_errno (e : Z) (w : world) : world :=
  {| errno := e; dlog := dlog w; debug_init := debug_init w;
     sig_handlers := sig_handlers w; destroyed := destroyed w;
     log_out := log_out w; stderr_out := stderr_out w |}.

Definition set_dlog (d : debug_logger) (w : world) : world :=
  {| errno := errno w; dlog := d; debug_init := debug_init w;
     sig_handlers := sig_handlers w; destroyed := destroyed w;
     log_out := log_out w; stderr_out := stderr_out w |}.

Definition set_debug_init (b : bool) (w : world) : world :=
  {| errno := errno w; dlog := dlog w; debug_init := b;
     sig_handlers := sig_handlers w; destroyed := destroyed w;
     log_out := log_out w; stderr_out := stderr_out w |}.

Definition set_sig_handlers (hs : list (Z * sig_handler)) (w : world) : world :=
  {| errno := errno w; dlog := dlog w; debug_init := debug_init w;
     sig_handlers := hs; destroyed := destroyed w;
     log_out := log_out w; stderr_out := stderr_out w |}.

Definition set_destroyed (ds : list log_handle) (w : world) : world :=
  {| errno := errno w; dlog := dlog w; debug_init := debug_init w;
     sig_handlers := sig_handlers w; destroyed := ds;
     log_out := log_out w; stderr_out := stderr_out w |}.

Definition set_log_out (o : list (log_handle * text)) (w : world) : world :=
  {| errno := errno w; dlog := dlog w; debug_init := debug_init w;
     sig_handlers := sig_handlers w; destroyed := destroyed w;
     log_out := o; stderr_out := stderr_out w |}.

Definition set_stderr_out (o : list text) (w : world) : world :=
  {| errno := errno w; dlog := dlog w; debug_init := debug_init w;
     sig_handlers := sig_handlers w; destroyed := destroyed w;
     log_out := log_out w; stderr_out := o |}.

(** ** Outcomes and the monad *)

Inductive fault :=
| BufferOverrun   (* a store outside a local array *)
| BadRead         (* a read outside an object, or of an indeterminate cell *)
| OutOfFuel.      (* a loop of the model ran out of its iteration budget *)

Inductive outcome (A : Type) :=
| Ret (a : A) (w : world)   (* the call returns *)
| Abort (w : world)         (* the process is terminated by [abort] *)
| Fault (f : fault).        (* undefined behaviour *)
Arguments Ret {A} a w.
Arguments Abort {A} w.
Arguments Fault {A} f.

Definition M (A : Type) : Type := world -> outcome A.

Definition ret {A} (a : A) : M A := fun w => Ret a w.

Definition bind {A B} (m : M A) (k : A -> M B) : M B :=
  fun w =>
    match m w with
    | Ret a w' => k a w'
    | Abort w' => Abort w'
    | Fault f => Fault f
    end.

Definition raise {A} (f : fault) : M A := fun _ => Fault f.

Notation "'do' x <- m ; k" := (bind m (fun x => k))
  (at level 10, x name, m at level 100, k at level 200).
Notation "'do' ' p <- m ; k" := (bind m (fun x => match x with p => k end))
  (at level 10, p pattern, m at level 100, k at level 200).
Notation "'do_' m ; k" := (bind m (fun _ => k))
  (at level 10, m at level 100, k at level 200).

(** [while (cond) body], with an explicit iteration budget. *)
Fixpoint while {S : Type} (fuel : nat) (cond : S -> bool) (body : S -> M S)
    (s : S) : M S :=
  if cond s then
    match fuel with
    | O => raise OutOfFuel
    | Datatypes.S fuel' => do s' <- body s; while fuel' cond body s'
    end
  else ret s.

(** ** The platform and the collaborators

    What the module takes from its headers and from the C library is
    gathered in one record: the capacity constant [LOG_MAX_LEN], which
    [cc_log.h] declares and which is not among the sources, the build
    flag, and the answers of the calls whose results the module cannot
    influence. *)

Record platform := {
  LOG_MAX_LEN : Z;                       (* [cc_log.h]: capacity of a log line *)
  CC_BACKTRACE : bool;                   (* built with [-DCC_BACKTRACE] *)
  errno_after : string -> Z -> Z;        (* errno a library call leaves behind *)
  time_now : Z;                          (* [time(NULL)] *)
  asctime_localtime : Z -> text;         (* [asctime(localtime(&t))] *)
  log_create_result : option text -> Z -> option log_handle;
  signal_override_result : Z -> Z;       (* return code, by signal number *)
  backtrace_frames : list text;          (* active frames, innermost first *)
  backtrace_symbols_ok : bool            (* [backtrace_symbols] can allocate *)
}.

(** A local [char] array: [None] is a byte that was never stored. *)
Abbreviation cells := (list (option ascii)).

Definition alloca (n : Z) : cells := replicate (Z.to_nat n) None.

Fixpoint cells_text (cs : cells) : option text :=
  match cs with
  | [] => Some []
  | Some c :: cs' =>
      match cells_text cs' with Some t => Some (c :: t) | None => None end
  | None :: _ => None
  end.

Section Platform.

Variable pf : platform.

Definition get_errno : M Z := fun w => Ret (errno w) w.

Definition put_errno (e : Z) : M unit := fun w => Ret tt (set_errno e w).

(** A library call may leave any value in errno. *)
Definition clobber (callee : string) : M unit :=
  fun w => Ret tt (set_errno (errno_after pf callee (errno w)) w).

(** [buf[idx] = c] *)
Definition store (buf : cells) (idx : Z) (c : ascii) : M cells :=
  if (0 <=? idx) && (idx <? Z.of_nat (length buf))
  then ret (<[Z.to_nat idx := Some c]> buf)
  else raise BufferOverrun.

(** The first [len] bytes of [buf], as the log target reads them. *)
Definition load_bytes (buf : cells) (len : Z) : M text :=
  if (0 <=? len) && (len <=? Z.of_nat (length buf)) then
    match cells_text (take (Z.to_nat len) buf) with
    | Some t => ret t
    | None => raise BadRead
    end
  else raise BadRead.

(** [arr[i]] for reading; also [*data] for a pointer [data] that is [i]
    bytes into the object [arr]. *)
Definition index {A} (arr : list A) (i : Z) : M A :=
  if 0 <=? i then
    match arr !! Z.to_nat i with
    | Some x => ret x
    | None => raise BadRead
    end
  else raise BadRead.

(** The characters of [s] go to [buf[pos]], [buf[pos + 1]], ... while more
    than one byte of [room] is left; the terminating NUL takes the last
    one.  The result counts the characters, not the NUL. *)
Fixpoint put_chars (s : text) (buf : cells) (pos room : Z) : M (cells * Z) :=
  match s with
  | c :: s' =>
      if 1 <? room then
        do buf1 <- store buf pos c;
        do '(buf2, n) <- put_chars s' buf1 (pos + 1) (room - 1);
        ret (buf2, n + 1)
      else
        do buf1 <- store buf pos NUL;
        ret (buf1, 0)
  | [] =>
      do buf1 <- store buf pos NUL;
      ret (buf1, 0)
  end.

(** Modelled from the spec: [cc_scnprintf] ([cc_print.h]) is not among the
    sources.  It is the "bounded/truncating format-into-buffer primitive
    returning the number of bytes written (excluding truncation marker)":
    given the place [buf + pos], the room [size] and the text [s] that the
    format and its arguments expand to, it stores at most [size] bytes,
    the terminating NUL included, and returns the number of characters of
    [s] it stored. *)
Definition cc_scnprintf (buf : cells) (pos size : Z) (s : text) : M (cells * Z) :=
  if size <=? 0 then ret (buf, 0)
  else
    do r <- put_chars s buf pos size;
    do_ clobber "vsnprintf";
    ret r.

(** Modelled from the spec: [cc_vscnprintf] is [cc_scnprintf] for a
    [va_list]; [s] is what [fmt] expands to with the arguments. *)
Definition cc_vscnprintf (buf : cells) (pos size : Z) (s : text) : M (cells * Z) :=
  cc_scnprintf buf pos size s.

(** Modelled from the spec: [log_stderr] ([cc_log.h]) is not among the
    sources.  It puts one line on the "guaranteed-available raw error
    stream (independent of the configurable LogTarget)". *)
Definition log_stderr (line : text) : M unit :=
  fun w =>
    Ret tt (set_errno (errno_after pf "log_stderr" (errno w))
             (set_stderr_out (stderr_out w ++ [line]) w)).

(** Modelled from the spec: [_log_write] ([cc_log.h]) is not among the
    sources.  It is the log target's [write(handle, bytes)]: one call
    hands [bytes] to the target. *)
Definition _log_write (lg : log_handle) (bytes : text) : M unit :=
  fun w =>
    Ret tt (set_errno (errno_after pf "_log_write" (errno w))
             (set_log_out (log_out w ++ [(lg, bytes)]) w)).

(** Modelled from the spec: [log_create] is the log target's
    [open(path, bufferCount) -> Handle | Fail]. *)
Definition log_create (log_file : option text) (log_nbuf : Z) : M (option log_handle) :=
  do_ clobber "log_create";
  ret (log_create_result pf log_file log_nbuf).

(** Modelled from the spec: [log_destroy(&dlog->logger)] is the log
    target's [close(handle)]; it releases the target and clears the
    pointer it was given. *)
Definition log_destroy : M unit :=
  fun w =>
    match logger (dlog w) with
    | Some lg =>
        Ret tt (set_dlog {| logger := None; level := level (dlog w) |}
                  (set_destroyed (destroyed w ++ [lg]) w))
    | None => Ret tt w
    end.

(** Modelled from the spec: [signal_override] is the signal-install
    collaborator, [install(signal, description, flags, mask, handler) ->
    Result]; a negative return code is a failure and installs nothing. *)
Definition signal_override (signo : Z) (handler : sig_handler) : M Z :=
  fun w =>
    let rc := signal_override_result pf signo in
    if rc <? 0 then Ret rc w
    else Ret rc (set_sig_handlers ((signo, handler) :: sig_handlers w) w).

Definition abort {A} : M A := fun w => Abort w.

(** ** debug_stacktrace *)

Definition debug_stacktrace (skip_count : Z) : M unit :=
  if CC_BACKTRACE pf then
    do_ log_stderr (txt "printing stracktrace (depth limit: "
                      ++ fmt_d BACKTRACE_DEPTH ++ txt ")");
    (* size = backtrace(stack, BACKTRACE_DEPTH) *)
    let stack := take (Z.to_nat BACKTRACE_DEPTH) (backtrace_frames pf) in
    let size := Z.of_nat (length stack) in
    (* symbols = backtrace_symbols(stack, size) *)
    if negb (backtrace_symbols_ok pf) then
      log_stderr (txt "Could not print backtrace; no symbols")
    else
      let symbols := stack in
      let skip_count := int_wrap (skip_count + 1) in
      do_ while (Z.to_nat BACKTRACE_DEPTH)
            (fun '(i, j) => i <? size)
            (fun '(i, j) =>
               do sym <- index symbols i;
               do_ log_stderr (txt "[" ++ fmt_d j ++ txt "] " ++ sym);
               ret (int_wrap (i + 1), int_wrap (j + 1)))
            (skip_count, 0);
      ret tt
  else ret tt.

(** ** debug_assert *)

Definition debug_assert (cond file : text) (line : Z) (panic : Z) : M unit :=
  do_ log_stderr (txt "assert '" ++ cond ++ txt "' failed @ (" ++ file
                    ++ txt ", " ++ fmt_d line ++ txt ")");
  if negb (panic =? 0) then
    do_ debug_stacktrace 1;
    abort
  else ret tt.

(** ** debug_setup and debug_teardown *)

Definition set_logger (lg : option log_handle) : M unit :=
  fun w => Ret tt (set_dlog {| logger := lg; level := level (dlog w) |} w).

Definition set_level (l : Z) : M unit :=
  fun w => Ret tt (set_dlog {| logger := logger (dlog w); level := l |} w).

Definition get_dlog : M debug_logger := fun w => Ret (dlog w) w.

Definition get_debug_init : M bool := fun w => Ret (debug_init w) w.

Definition put_debug_init (b : bool) : M unit :=
  fun w => Ret tt (set_debug_init b w).

Definition debug_setup (log_level : Z) (log_file : option text) (log_nbuf : Z)
    : M rstatus_i :=
  do_ log_stderr (txt "Set up the " ++ DEBUG_MODULE_NAME ++ txt " module");
  do init <- get_debug_init;
  do_ (if init
       then log_stderr (DEBUG_MODULE_NAME
                          ++ txt " has already been setup, overwrite")
       else ret tt);
  do dl <- get_dlog;
  do_ (match logger dl with
       | Some _ =>
           do_ log_stderr (txt "logger already exists, recreating it.");
           log_destroy
       | None => ret tt
       end);
  do lg <- log_create log_file log_nbuf;
  do_ set_logger lg;
  match lg with
  | Some _ =>
    do_ set_level log_level;
    (* some adjustment on signal handling *)
    do rc <- signal_override SIGSEGV _stacktrace;
    if rc <? 0 then ret CC_ERROR
    else
      (* override the TTIN signal for nocopytruncate style rotation *)
      do rc' <- signal_override SIGTTIN _logrotate;
      if rc' <? 0 then ret CC_ERROR
      else
        do_ put_debug_init true;
        ret CC_OK
  | None =>
    do_ log_stderr (txt "Could not create logger!");
    ret CC_ERROR
  end.

Definition debug_teardown : M unit :=
  do_ log_stderr (txt "Tear down the " ++ DEBUG_MODULE_NAME ++ txt " module");
  do init <- get_debug_init;
  do_ (if negb init
       then log_stderr (DEBUG_MODULE_NAME ++ txt " was never setup")
       else ret tt);
  do dl <- get_dlog;
  do_ (match logger dl with Some _ => log_destroy | None => ret tt end);
  put_debug_init false.

(** ** _log *)

(** [time], [localtime] and [asctime], in one step. *)
Definition asctime_now : M text :=
  do_ clobber "time";
  do_ clobber "localtime";
  do_ clobber "asctime";
  ret (asctime_localtime pf (time_now pf)).

(** [msg] is what [fmt] expands to with the variable arguments. *)
Definition _log (dl : debug_logger) (file : text) (line : Z) (lvl : Z)
    (msg : text) : M unit :=
  match logger dl with
  | None => ret tt
  | Some lg =>
      if level dl <? lvl then ret tt
      else
        do errno_save <- get_errno;
        let buf := alloca (LOG_MAX_LEN pf) in
        let len := 0 in                (* length of output buffer *)
        let size := LOG_MAX_LEN pf in  (* size of output buffer *)
        do timestr <- asctime_now;
        do name <- index level_str lvl;
        do '(buf1, n1) <-
          cc_scnprintf buf len (int_wrap (size - len))
            (txt "[" ++ fmt_prec_s (int_wrap (strlen timestr - 1)) timestr
               ++ txt "][" ++ name ++ txt "] " ++ file ++ txt ":"
               ++ fmt_d line ++ txt " ");
        let len1 := int_wrap (len + n1) in
        do '(buf2, n2) <- cc_vscnprintf buf1 len1 (int_wrap (size - len1)) msg;
        let len2 := int_wrap (len1 + n2) in
        do buf3 <- store buf2 len2 NL;
        let len3 := int_wrap (len2 + 1) in
        do bytes <- load_bytes buf3 len3;
        do_ _log_write lg bytes;
        put_errno errno_save
  end.

(** ** _log_hexdump *)

Record dump_state := {
  d_data : Z;        (* [data], as an offset into the dumped object *)
  d_datalen : Z;
  d_i : Z;
  d_off : Z;         (* data offset *)
  d_len : Z;         (* length of output buffer *)
  d_buf : cells
}.

Definition with_i (i : Z) (s : dump_state) : dump_state :=
  {| d_data := d_data s; d_datalen := d_datalen s; d_i := i;
     d_off := d_off s; d_len := d_len s; d_buf := d_buf s |}.

Definition with_data (data datalen : Z) (s : dump_state) : dump_state :=
  {| d_data := data; d_datalen := datalen; d_i := d_i s;
     d_off := d_off s; d_len := d_len s; d_buf := d_buf s |}.

Definition with_off (off : Z) (s : dump_state) : dump_state :=
  {| d_data := d_data s; d_datalen := d_datalen s; d_i := d_i s;
     d_off := off; d_len := d_len s; d_buf := d_buf s |}.

(** [len += cc_scnprintf(buf + len, size - len, ...)], where the format
    and its arguments expand to [piece]. *)
Definition emit (size : Z) (piece : text) (s : dump_state) : M dump_state :=
  do '(buf, n) <- cc_scnprintf (d_buf s) (d_len s) (int_wrap (size - d_len s)) piece;
  ret {| d_data := d_data s; d_datalen := d_datalen s; d_i := d_i s;
         d_off := d_off s; d_len := int_wrap (d_len s + n); d_buf := buf |}.

(** [data++, datalen--, i++] *)
Definition advance (s : dump_state) : dump_state :=
  with_i (int_wrap (d_i s + 1))
    (with_data (d_data s + 1) (int_wrap (d_datalen s - 1)) s).

(** The separator after hex field [i]. *)
Definition sep (i : Z) : text := if i =? 7 then txt "  " else txt " ".

(** [for (i = 0; datalen != 0 && i < 16; data++, datalen--, i++)]: the hex
    fields of the bytes at hand. *)
Definition hex_loop (obj : text) (size : Z) (s : dump_state) : M dump_state :=
  while 16 (fun s => negb (d_datalen s =? 0) && (d_i s <? 16))
    (fun s =>
       do c <- index obj (d_data s);
       do s1 <- emit size (fmt_02x c ++ sep (d_i s)) s;
       ret (advance s1))
    (with_i 0 s).

(** [for ( ; i < 16; i++)]: blank fields up to the sixteenth. *)
Definition pad_loop (size : Z) (s : dump_state) : M dump_state :=
  while 16 (fun s => d_i s <? 16)
    (fun s =>
       do s1 <- emit size (txt "  " ++ sep (d_i s)) s;
       ret (with_i (int_wrap (d_i s1 + 1)) s1))
    s.

(** The second [for (i = 0; datalen != 0 && i < 16; ...)]: the gutter. *)
Definition gutter_loop (obj : text) (size : Z) (s : dump_state) : M dump_state :=
  while 16 (fun s => negb (d_datalen s =? 0) && (d_i s <? 16))
    (fun s =>
       do c0 <- index obj (d_data s);
       let c := if isprint c0 then c0 else "."%char in
       do s1 <- emit size [c] s;
       ret (advance s1))
    (with_i 0 s).

(** The body of the outer [while]: one row. *)
Definition dump_row (obj : text) (size : Z) (s : dump_state) : M dump_state :=
  do s1 <- emit size (fmt_08x (d_off s) ++ txt "  ") s;
  let save := d_data s1 in
  let savelen := d_datalen s1 in
  do s2 <- hex_loop obj size s1;
  do s3 <- pad_loop size s2;
  let s4 := with_data save savelen s3 in
  do s5 <- emit size (txt "  |") s4;
  do s6 <- gutter_loop obj size s5;
  do s7 <- emit size (txt "|" ++ [NL]) s6;
  ret (with_off (int_wrap (d_off s7 + 16)) s7).

(** [data] points at the first byte of the object [obj]. *)
Definition _log_hexdump (dl : debug_logger) (lvl : Z) (obj : text)
    (datalen : Z) : M unit :=
  match logger dl with
  | None => ret tt
  | Some lg =>
      if level dl <? lvl then ret tt
      else
        (* log hexdump *)
        do errno_save <- get_errno;
        let size := int_wrap (8 * LOG_MAX_LEN pf) in  (* size of output buffer *)
        do s <- while (Z.to_nat size)
                  (fun s => negb (d_datalen s =? 0) && (d_len s <? size - 1))
                  (dump_row obj size)
                  {| d_data := 0; d_datalen := datalen; d_i := 0;
                     d_off := 0; d_len := 0;
                     d_buf := alloca (8 * LOG_MAX_LEN pf) |};
        do bytes <- load_bytes (d_buf s) (d_len s);
        do_ _log_write lg bytes;
        put_errno errno_save
  end.

End Platform.

(** ** What the specification says a hex dump looks like

    One row per 16 input bytes: the offset as eight hexadecimal digits,
    sixteen hex fields grouped 8+8 (blank where the input has ended), and
    the same bytes as printable ASCII or [.] between bars. *)

Definition spec_field (chunk : text) (j : nat) : text :=
  match chunk !! j with
  | Some c => fmt_02x c
  | None => txt "  "
  end ++ sep (Z.of_nat j).

Definition spec_gutter (chunk : text) : text :=
  (fun c => if isprint c then c else "."%char) <$> chunk.

Definition spec_row (k : nat) (chunk : text) : text :=
  hex_digits 8 (16 * Z.of_nat k) ++ txt "  "
    ++ concat (spec_field chunk <$> seq 0 16)
    ++ txt "  |" ++ spec_gutter chunk ++ txt "|" ++ [NL].

(** ceil(n / 16) *)
Definition row_count (n : nat) : nat := Nat.div (n + 15) 16.

(** The first [n] 16-byte chunks of [data]. *)
Fixpoint chunks (n : nat) (data : text) : list text :=
  match n with
  | O => []
  | S n' => take 16 data :: chunks n' (drop 16 data)
  end.

Definition spec_rows (n : nat) (data : text) : list text :=
  imap spec_row (chunks n data).

Definition spec_hexdump (data : text) : text :=
  concat (spec_rows (row_count (length data)) data).

(** The number of newline characters in a text. *)
Definition count_nl (t : text) : nat := length (List.filter (Ascii.eqb NL) t).

(** The log line the specification describes, without its newline. *)
Definition spec_line (stamp name file : text) (line : Z) (msg : text) : text :=
  txt "[" ++ stamp ++ txt "][" ++ name ++ txt "] " ++ file ++ txt ":"
    ++ fmt_d line ++ txt " " ++ msg.

(** The lines of a stack trace that hides [skip] frames of the caller's
    choosing plus the dumper's own. *)
Definition spec_trace_lines (skip : nat) (frames : list text) : list text :=
  imap (fun j sym => txt "[" ++ fmt_d (Z.of_nat j) ++ txt "] " ++ sym)
       (drop (S skip) frames).

(** ** A concrete platform, for the examples *)

Definition example_platform : platform :=
  {| LOG_MAX_LEN := 2560;
     CC_BACKTRACE := true;
     errno_after := fun _ e => e + 1;
     time_now := 117331432;
     asctime_localtime := fun _ => txt "Sun Sep 16 01:03:52 1973" ++ [NL];
     log_create_result := fun _ _ => Some 1%nat;
     signal_override_result := fun _ => 0;
     backtrace_frames :=
       [txt "debug_stacktrace"; txt "debug_assert"; txt "main"; txt "_start"];
     backtrace_symbols_ok := true |}.

Definition example_world : world :=
  {| errno := 4;
     dlog := {| logger := Some 1%nat; level := 4 |};
     debug_init := true;
     sig_handlers := [];
     destroyed := [];
     log_out := [];
     stderr_out := [] |}.

Definition fresh_world : world :=
  {| errno := 0;
     dlog := {| logger := None; level := 0 |};
     debug_init := false;
     sig_handlers := [];
     destroyed := [];
     log_out := [];
     stderr_out := [] |}.

(** A platform whose signal-install collaborator rejects every handler. *)
Definition sig_fail_platform : platform :=
  {| LOG_MAX_LEN := 2560;
     CC_BACKTRACE := true;
     errno_after := fun _ e => e + 1;
     time_now := 117331432;
     asctime_localtime := fun _ => txt "Sun Sep 16 01:03:52 1973" ++ [NL];
     log_create_result := fun _ _ => Some 1%nat;
     signal_override_result := fun _ => -1;
     backtrace_frames := [];
     backtrace_symbols_ok := true |}.

(** A platform on which the log target cannot be opened. *)
Definition no_target_platform : platform :=
  {| LOG_MAX_LEN := 2560;
     CC_BACKTRACE := true;
     errno_after := fun _ e => e + 1;
     time_now := 117331432;
     asctime_localtime := fun _ => txt "Sun Sep 16 01:03:52 1973" ++ [NL];
     log_create_result := fun _ _ => None;
     signal_override_result := fun _ => 0;
     backtrace_frames := [];
     backtrace_symbols_ok := true |}.

Definition warn_logger : debug_logger := {| logger := Some 1%nat; level := 3 |}.

Definition null_logger : debug_logger := {| logger := None; level := 7 |}.

Definition long_message : text := repeat "x"%char 3000.

Definition long_data : text := repeat "A"%char 4097.

(** ** Vocabulary of the statements *)

(** The severities of the glossary: ALWAYS (0) to VVERB (7). *)
Definition severity (l : Z) : Prop := 0 <= l <= 7.

(** The call returns and the process state is as it was. *)
Definition skipped (pf : platform) (dl : debug_logger) (file : text) (line lvl : Z)
    (msg : text) (w : world) : Prop :=
  _log pf dl file line lvl msg w = Ret tt w.

(** The call returns after exactly one write to the target [lg], and
    nothing else of the process state has changed. *)
Definition emitted (pf : platform) (dl : debug_logger) (lg : log_handle)
    (file : text) (line lvl : Z) (msg : text) (w : world) : Prop :=
  exists bytes,
    _log pf dl file line lvl msg w
      = Ret tt (set_log_out (log_out w ++ [(lg, bytes)]) w).

(** The header [_log] prints in front of the message. *)
Definition log_header (pf : platform) (name file : text) (line : Z) : text :=
  txt "[" ++ fmt_prec_s (int_wrap (strlen (asctime_localtime pf (time_now pf)) - 1))
                (asctime_localtime pf (time_now pf))
    ++ txt "][" ++ name ++ txt "] " ++ file ++ txt ":" ++ fmt_d line ++ txt " ".

(** The line [debug_assert] writes. *)
Definition assert_line (cond file : text) (line : Z) : text :=
  txt "assert '" ++ cond ++ txt "' failed @ (" ++ file ++ txt ", "
    ++ fmt_d line ++ txt ")".

(** What a stack trace dump that hides [skip] frames puts on stderr. *)
Definition spec_dump (pf : platform) (skip : nat) : list text :=
  if CC_BACKTRACE pf then
    txt "printing stracktrace (depth limit: 64)"
      :: (if backtrace_symbols_ok pf
          then spec_trace_lines skip (take 64 (backtrace_frames pf))
          else [txt "Could not print backtrace; no symbols"])
  else [].

(** The characters of a text other than the space. *)
Definition count_nonspace (t : text) : nat :=
  length (List.filter (fun c => negb (Ascii.eqb c " "%char)) t).

(** ** Predicates of the proofs *)

(** Only errno differs between [w0] and [w]. *)
Definition clobbered (w0 w : world) : Prop := exists e, w = set_errno e w0.

(** [w'] is [w] with the lines [ls] added to stderr, and some errno. *)
Definition said (w : world) (ls : list text) (w' : world) : Prop :=
  exists e, w' = set_errno e (set_stderr_out (stderr_out w ++ ls) w).

(** [buf] has [cap] cells and its first cells hold exactly [t]. *)
Definition written (cap : nat) (buf : cells) (t : text) : Prop :=
  length buf = cap /\ take (length t) buf = Some <$> t.

(** What was printed so far is [ideal], cut to [size - 1] characters. *)
Definition printed (size : Z) (buf : cells) (len : Z) (ideal : text) : Prop :=
  written (Z.to_nat size) buf (take (Z.to_nat (size - 1)) ideal)
  /\ len = Z.of_nat (length (take (Z.to_nat (size - 1)) ideal)).

(** [emit] and the loops leave the other variables alone. *)
Definition same_vars (s s' : dump_state) : Prop :=
  d_data s' = d_data s /\ d_datalen s' = d_datalen s /\
  d_i s' = d_i s /\ d_off s' = d_off s.

(** The state of the dump after [ideal] was printed, starting in [w0]. *)
Definition good (size : Z) (w0 : world) (ideal : text) (s : dump_state)
    (w : world) : Prop :=
  clobbered w0 w /\ printed size (d_buf s) (d_len s) ideal.

(** [chunk] is what the source has at hand at state [s]: the next bytes of
    the object, sixteen of them unless fewer remain. *)
Definition at_hand (obj : text) (chunk : text) (s : dump_state) : Prop :=
  (length chunk <= 16)%nat /\
  0 <= d_data s /\
  Z.of_nat (length chunk) <= d_datalen s <= INT_MAX /\
  ((length chunk < 16)%nat -> d_datalen s = Z.of_nat (length chunk)) /\
  (forall (j : nat) c,
     chunk !! j = Some c -> obj !! Z.to_nat (d_data s + Z.of_nat j) = Some c).

(** ** Vocabulary of the further properties *)

(** The target the logger holds, as the list of what a release of it
    gives to [log_destroy]. *)
Definition held_target (w : world) : list log_handle :=
  match logger (dlog w) with
  | Some lg => [lg]
  | None => []
  end.

Definition teardown_line : text :=
  txt "Tear down the " ++ DEBUG_MODULE_NAME ++ txt " module".

Definition never_setup_line : text := DEBUG_MODULE_NAME ++ txt " was never setup".

(** A platform that installs the crash handler and rejects the rotation
    handler. *)
Definition rotate_fail_platform : platform :=
  {| LOG_MAX_LEN := 2560;
     CC_BACKTRACE := true;
     errno_after := fun _ e => e + 1;
     time_now := 117331432;
     asctime_localtime := fun _ => txt "Sun Sep 16 01:03:52 1973" ++ [NL];
     log_create_result := fun _ _ => Some 2%nat;
     signal_override_result := fun signo => if signo =? SIGTTIN then -1 else 0;
     backtrace_frames := [];
     backtrace_symbols_ok := true |}.



(** A character a dump may contain: printable, or the newline. *)
Definition printable_or_nl (c : ascii) : Prop := isprint c = true \/ c = NL.

Definition trace_header : text := txt "printing stracktrace (depth limit: 64)".

(** A platform whose [asctime] result does not end in a newline. *)
Definition odd_clock_platform : platform :=
  {| LOG_MAX_LEN := 2560;
     CC_BACKTRACE := true;
     errno_after := fun _ e => e + 1;
     time_now := 0;
     asctime_localtime := fun _ => txt "noon";
     log_create_result := fun _ _ => Some 1%nat;
     signal_override_result := fun _ => 0;
     backtrace_frames := [];
     backtrace_symbols_ok := true |}.

(** * Proofs *)

(** ** C integers *)

Lemma int_wrap_id (z : Z) : INT_MIN <= z <= INT_MAX -> int_wrap z = z.
Proof.
  unfold int_wrap, INT_MIN, INT_MAX. intros H.
  rewrite Z.mod_small; lia.
Qed.

Lemma uint_wrap_id (z : Z) : 0 <= z <= INT_MAX -> uint_wrap z = z.
Proof.
  unfold uint_wrap, INT_MAX. intros H. apply Z.mod_small. lia.
Qed.

(** ** The monad *)

Lemma bind_Ret {A B} (m : M A) (k : A -> M B) w b w' :
  bind m k w = Ret b w' -> exists a w1, m w = Ret a w1 /\ k a w1 = Ret b w'.
Proof.
  unfold bind. destruct (m w) as [a w1| |]; [eauto | discriminate..].
Qed.

Lemma bind_step {A B} (m : M A) (k : A -> M B) w a w1 :
  m w = Ret a w1 -> bind m k w = k a w1.
Proof. unfold bind. intros ->. reflexivity. Qed.

Lemma clobbered_refl w : clobbered w w.
Proof. exists (errno w). destruct w; reflexivity. Qed.

Lemma clobbered_set_errno w0 w e : clobbered w0 w -> clobbered w0 (set_errno e w).
Proof. intros [e' ->]. exists e. reflexivity. Qed.

(** The loop rule: an invariant [I] kept by the body and a variant [V]
    that the body decreases and the budget covers. *)
Lemma while_rule {S} (I : S -> world -> Prop) (V : S -> nat)
    (cond : S -> bool) (body : S -> M S) :
  (forall s w, I s w -> cond s = true ->
     exists s' w', body s w = Ret s' w' /\ I s' w' /\ (V s' < V s)%nat) ->
  forall fuel s w, I s w -> (V s <= fuel)%nat ->
    exists s' w', while fuel cond body s w = Ret s' w' /\ I s' w' /\ cond s' = false.
Proof.
  intros Hbody. induction fuel as [|fuel IH]; intros s w HI HV.
  - simpl. destruct (cond s) eqn:Hc.
    + destruct (Hbody s w HI Hc) as (s' & w' & _ & _ & Hlt). lia.
    + exists s, w. auto.
  - simpl. destruct (cond s) eqn:Hc.
    + destruct (Hbody s w HI Hc) as (s' & w' & Hb & HI' & Hlt).
      rewrite (bind_step _ _ _ _ _ Hb). apply IH; [assumption | lia].
    + exists s, w. auto.
Qed.

(** ** Local arrays *)

Lemma cells_text_Some (t : text) : cells_text (Some <$> t) = Some t.
Proof.
  induction t as [|c t IH]; [reflexivity|].
  rewrite fmap_cons. simpl. now rewrite IH.
Qed.

Lemma written_length cap buf t : written cap buf t -> (length t <= cap)%nat.
Proof.
  intros [Hc Ht]. apply (f_equal length) in Ht.
  rewrite length_take, length_fmap in Ht. lia.
Qed.

Lemma written_alloca n : written (Z.to_nat n) (alloca n) [].
Proof. split; [apply length_replicate | reflexivity]. Qed.

Lemma written_snoc cap buf t c :
  written cap buf t -> (length t < cap)%nat ->
  written cap (<[length t := Some c]> buf) (t ++ [c]).
Proof.
  intros [Hc Ht] Hlt. split; [now rewrite length_insert|].
  rewrite length_app; simpl. rewrite Nat.add_1_r.
  rewrite (take_S_r _ _ (Some c)) by (apply list_lookup_insert_eq; lia).
  rewrite take_insert. destruct (decide (length t < length t)%nat); [lia|].
  now rewrite Ht, fmap_app.
Qed.

(** A store past the written part leaves it as it is. *)
Lemma written_beyond cap buf t c :
  written cap buf t -> written cap (<[length t := Some c]> buf) t.
Proof.
  intros [Hc Ht]. split; [now rewrite length_insert|].
  rewrite take_insert. destruct (decide (length t < length t)%nat); [lia | assumption].
Qed.

Lemma take_app_trunc {A} (n : nat) (l s : list A) :
  take n (l ++ s) = take n l ++ take (n - length (take n l)) s.
Proof.
  rewrite take_app, length_take. f_equal.
  destruct (Nat.le_gt_cases (length l) n).
  - now rewrite Nat.min_r.
  - rewrite Nat.min_l by lia. now replace (n - length l)%nat with (n - n)%nat by lia.
Qed.

Lemma printed_alloca size : 0 <= size -> printed size (alloca size) 0 [].
Proof.
  intros H. split; rewrite take_nil; [apply written_alloca | reflexivity].
Qed.

(** ** The formatter and [_log] *)

Section Proofs.

Variable pf : platform.

Lemma store_ok cap buf t c w :
  written cap buf t -> (length t < cap)%nat ->
  store buf (Z.of_nat (length t)) c w = Ret (<[length t := Some c]> buf) w.
Proof.
  intros [Hc Ht] Hlt. unfold store.
  replace ((0 <=? Z.of_nat (length t)) && (Z.of_nat (length t) <? Z.of_nat (length buf)))
    with true by (symmetry; apply andb_true_intro; split; [apply Z.leb_le | apply Z.ltb_lt]; lia).
  now rewrite Nat2Z.id.
Qed.

Lemma load_bytes_ok cap buf t w :
  written cap buf t -> load_bytes buf (Z.of_nat (length t)) w = Ret t w.
Proof.
  intros Hw. pose proof (written_length _ _ _ Hw) as Hl. destruct Hw as [Hc Ht].
  unfold load_bytes.
  replace ((0 <=? Z.of_nat (length t)) && (Z.of_nat (length t) <=? Z.of_nat (length buf)))
    with true by (symmetry; apply andb_true_intro; split; apply Z.leb_le; lia).
  now rewrite Nat2Z.id, Ht, cells_text_Some.
Qed.

(** [put_chars] appends as much of [s] as [room] allows after what is
    written, and stays inside the array when [pos + room] does. *)
Lemma put_chars_ok cap (s : text) : forall buf t room w,
  written cap buf t -> 1 <= room -> Z.of_nat (length t) + room <= Z.of_nat cap ->
  exists buf',
    put_chars s buf (Z.of_nat (length t)) room w
      = Ret (buf', Z.of_nat (length (take (Z.to_nat (room - 1)) s))) w
    /\ written cap buf' (t ++ take (Z.to_nat (room - 1)) s).
Proof.
  induction s as [|c s IH]; intros buf t room w Hw Hroom Hfit.
  - simpl. rewrite (bind_step _ _ _ _ _ (store_ok cap buf t NUL w Hw ltac:(lia))).
    exists (<[length t := Some NUL]> buf). rewrite take_nil, app_nil_r.
    split; [reflexivity | now apply written_beyond].
  - simpl put_chars. destruct (1 <? room) eqn:Hr.
    + apply Z.ltb_lt in Hr.
      rewrite (bind_step _ _ _ _ _ (store_ok cap buf t c w Hw ltac:(lia))).
      pose proof (written_snoc cap buf t c Hw ltac:(lia)) as Hw1.
      destruct (IH _ (t ++ [c]) (room - 1) w Hw1 ltac:(lia)
                  ltac:(rewrite length_app; simpl; lia)) as (buf' & Hp & Hw').
      replace (Z.of_nat (length (t ++ [c]))) with (Z.of_nat (length t) + 1) in Hp
        by (rewrite length_app; simpl; lia).
      rewrite (bind_step _ _ _ _ _ Hp). exists buf'.
      replace (Z.to_nat (room - 1)) with (S (Z.to_nat (room - 1 - 1))) by lia.
      simpl take. split.
      * unfold ret. f_equal. f_equal. simpl length. lia.
      * now rewrite <- app_assoc in Hw'.
    + apply Z.ltb_ge in Hr. assert (room = 1) as -> by lia.
      rewrite (bind_step _ _ _ _ _ (store_ok cap buf t NUL w Hw ltac:(lia))).
      exists (<[length t := Some NUL]> buf). simpl. rewrite app_nil_r.
      split; [reflexivity | now apply written_beyond].
Qed.

Lemma cc_scnprintf_ok cap buf t size s w :
  written cap buf t -> 1 <= size -> Z.of_nat (length t) + size <= Z.of_nat cap ->
  exists buf',
    cc_scnprintf pf buf (Z.of_nat (length t)) size s w
      = Ret (buf', Z.of_nat (length (take (Z.to_nat (size - 1)) s)))
            (set_errno (errno_after pf "vsnprintf" (errno w)) w)
    /\ written cap buf' (t ++ take (Z.to_nat (size - 1)) s).
Proof.
  intros Hw Hs Hfit. unfold cc_scnprintf.
  destruct (size <=? 0) eqn:Hz; [apply Z.leb_le in Hz; lia|].
  destruct (put_chars_ok cap s buf t size w Hw Hs Hfit) as (buf' & Hp & Hw').
  rewrite (bind_step _ _ _ _ _ Hp). exists buf'. split; [reflexivity | assumption].
Qed.

Lemma cc_scnprintf_printed size buf len ideal s w :
  1 <= size <= INT_MAX -> printed size buf len ideal ->
  exists buf' n,
    cc_scnprintf pf buf len (int_wrap (size - len)) s w
      = Ret (buf', n) (set_errno (errno_after pf "vsnprintf" (errno w)) w)
    /\ printed size buf' (int_wrap (len + n)) (ideal ++ s).
Proof.
  intros Hsize [Hw ->]. unfold INT_MAX in Hsize.
  set (t := take (Z.to_nat (size - 1)) ideal) in *.
  assert (length t <= Z.to_nat (size - 1))%nat as Hlen
    by (unfold t; rewrite length_take; lia).
  rewrite int_wrap_id by (unfold INT_MIN, INT_MAX; lia).
  destruct (cc_scnprintf_ok (Z.to_nat size) buf t (size - Z.of_nat (length t)) s w Hw)
    as (buf' & Hp & Hw'); [lia | lia |].
  exists buf', (Z.of_nat (length (take (Z.to_nat (size - Z.of_nat (length t) - 1)) s))).
  split; [exact Hp|].
  assert (take (Z.to_nat (size - 1)) (ideal ++ s)
          = t ++ take (Z.to_nat (size - Z.of_nat (length t) - 1)) s) as Heq.
  { rewrite take_app_trunc. fold t. f_equal. f_equal. lia. }
  unfold printed. rewrite Heq. split; [assumption|].
  rewrite length_app.
  assert (length (take (Z.to_nat (size - Z.of_nat (length t) - 1)) s)
          <= Z.to_nat (size - Z.of_nat (length t) - 1))%nat
    by (rewrite length_take; lia).
  rewrite int_wrap_id by (unfold INT_MIN, INT_MAX; lia). lia.
Qed.

Lemma printed_bound size buf len ideal :
  1 <= size -> printed size buf len ideal -> 0 <= len <= size - 1.
Proof. intros Hs [_ ->]. rewrite length_take. lia. Qed.

Lemma index_ok {A} (arr : list A) (i : Z) (x : A) w :
  0 <= i -> arr !! Z.to_nat i = Some x -> index arr i w = Ret x w.
Proof.
  intros Hi Hx. unfold index.
  destruct (0 <=? i) eqn:E; [|apply Z.leb_gt in E; lia]. now rewrite Hx.
Qed.

Lemma get_errno_ok w : get_errno w = Ret (errno w) w.
Proof. reflexivity. Qed.

Lemma asctime_now_ok w :
  asctime_now pf w
    = Ret (asctime_localtime pf (time_now pf))
          (set_errno (errno_after pf "asctime"
                        (errno_after pf "localtime"
                           (errno_after pf "time" (errno w)))) w).
Proof. reflexivity. Qed.

(** An emitting call of [_log] hands the target one line: header and
    message cut to [LOG_MAX_LEN - 1] characters, and a newline; nothing
    else changes. *)
Lemma _log_emits dl lg file line lvl msg name w :
  1 <= LOG_MAX_LEN pf <= INT_MAX ->
  logger dl = Some lg -> lvl <= level dl ->
  0 <= lvl -> level_str !! Z.to_nat lvl = Some name ->
  _log pf dl file line lvl msg w
    = Ret tt (set_log_out
                (log_out w ++ [(lg, take (Z.to_nat (LOG_MAX_LEN pf - 1))
                                      (log_header pf name file line ++ msg) ++ [NL])])
                w).
Proof.
  intros Hsize Hlg Hlvl H0 Hname. unfold _log. rewrite Hlg.
  destruct (level dl <? lvl) eqn:E; [apply Z.ltb_lt in E; lia|]. clear E.
  rewrite (bind_step _ _ _ _ _ (get_errno_ok w)).
  rewrite (bind_step _ _ _ _ _ (asctime_now_ok w)).
  set (w1 := set_errno _ w).
  rewrite (bind_step _ _ _ _ _ (index_ok level_str lvl name w1 H0 Hname)).
  fold (log_header pf name file line).
  assert (printed (LOG_MAX_LEN pf) (alloca (LOG_MAX_LEN pf)) 0 []) as Hpr0
    by (apply printed_alloca; lia).
  destruct (cc_scnprintf_printed (LOG_MAX_LEN pf) _ 0 [] (log_header pf name file line) w1
              Hsize Hpr0) as (buf1 & n1 & Hp1 & Hpr1).
  rewrite (bind_step _ _ _ _ _ Hp1). simpl app in Hpr1.
  set (w2 := set_errno _ w1) in *.
  unfold cc_vscnprintf.
  destruct (cc_scnprintf_printed (LOG_MAX_LEN pf) buf1 _ _ msg w2 Hsize Hpr1)
    as (buf2 & n2 & Hp2 & Hpr2).
  rewrite (bind_step _ _ _ _ _ Hp2).
  set (w3 := set_errno _ w2) in *.
  assert (1 <= LOG_MAX_LEN pf) as Hs1 by lia.
  pose proof (printed_bound _ _ _ _ Hs1 Hpr2) as Hb.
  destruct Hpr2 as [Hw2 Hlen2]. rewrite Hlen2 in *.
  set (t := take (Z.to_nat (LOG_MAX_LEN pf - 1)) (log_header pf name file line ++ msg)) in *.
  rewrite (bind_step _ _ _ _ _ (store_ok _ buf2 t NL w3 Hw2 ltac:(lia))).
  pose proof (written_snoc _ buf2 t NL Hw2 ltac:(lia)) as Hw3.
  rewrite int_wrap_id by (unfold INT_MIN, INT_MAX in *; lia).
  replace (Z.of_nat (length t) + 1) with (Z.of_nat (length (t ++ [NL])))
    by (rewrite length_app; simpl; lia).
  rewrite (bind_step _ _ _ _ _ (load_bytes_ok _ _ _ w3 Hw3)).
  reflexivity.
Qed.

End Proofs.

(** ** The loops of a dump row *)

Section HexdumpProofs.

Variable pf : platform.
Variable obj : text.
Variable size : Z.
Hypothesis Hsize : 1 <= size <= INT_MAX.
Variable w0 : world.

Lemma emit_ok ideal piece s w :
  good size w0 ideal s w ->
  exists s' w', emit pf size piece s w = Ret s' w'
    /\ good size w0 (ideal ++ piece) s' w' /\ same_vars s s'.
Proof.
  intros [Hc Hp]. unfold emit.
  destruct (cc_scnprintf_printed pf size _ _ _ piece w Hsize Hp) as (buf' & n & Hs & Hp').
  rewrite (bind_step _ _ _ _ _ Hs). eexists _, _. split; [reflexivity|].
  split; [|split_and!; reflexivity].
  split; [now apply clobbered_set_errno | exact Hp'].
Qed.

Lemma fields_snoc chunk (j : nat) :
  concat (spec_field chunk <$> seq 0 (S j))
  = concat (spec_field chunk <$> seq 0 j) ++ spec_field chunk j.
Proof.
  rewrite seq_S, fmap_app, concat_app. simpl. now rewrite app_nil_r.
Qed.

Lemma hex_loop_ok ideal chunk s w :
  good size w0 ideal s w -> at_hand obj chunk s ->
  exists s' w', hex_loop pf obj size s w = Ret s' w'
    /\ good size w0 (ideal ++ concat (spec_field chunk <$> seq 0 (length chunk))) s' w'
    /\ d_i s' = Z.of_nat (length chunk)
    /\ d_data s' = d_data s + Z.of_nat (length chunk)
    /\ d_datalen s' = d_datalen s - Z.of_nat (length chunk)
    /\ d_off s' = d_off s.
Proof.
  intros Hg (Hm & Hd0 & Hdl & Hshort & Hobj). unfold hex_loop.
  set (I := fun (s' : dump_state) (w' : world) =>
    exists j : nat, (j <= length chunk)%nat /\ d_i s' = Z.of_nat j
      /\ d_data s' = d_data s + Z.of_nat j
      /\ d_datalen s' = d_datalen s - Z.of_nat j
      /\ d_off s' = d_off s
      /\ good size w0 (ideal ++ concat (spec_field chunk <$> seq 0 j)) s' w').
  destruct (while_rule I (fun s' => Z.to_nat (16 - d_i s'))
              (fun s => negb (d_datalen s =? 0) && (d_i s <? 16))
              (fun s => do c <- index obj (d_data s);
                        do s1 <- emit pf size (fmt_02x c ++ sep (d_i s)) s;
                        ret (advance s1)))
    with (fuel := 16%nat) (s := with_i 0 s) (w := w)
    as (s' & w' & Hrun & (j & Hj & Hi & Hda & Hdl' & Hoff & Hg') & Hexit).
  - intros s1 w1 (j & Hj & Hi & Hda & Hdl' & Hoff & Hg1) Hcond.
    apply andb_true_iff in Hcond as [Hne Hlt].
    apply negb_true_iff, Z.eqb_neq in Hne. apply Z.ltb_lt in Hlt.
    assert (j < length chunk)%nat as Hjm by lia.
    destruct (lookup_lt_is_Some_2 chunk j Hjm) as [c Hc].
    rewrite (bind_step _ _ _ _ _
               (index_ok obj (d_data s1) c w1 ltac:(lia)
                  ltac:(rewrite Hda; now apply Hobj))).
    destruct (emit_ok _ (fmt_02x c ++ sep (d_i s1)) _ _ Hg1)
      as (s2 & w2 & He & Hg2 & Hd2 & Hl2 & Hi2 & Ho2).
    rewrite (bind_step _ _ _ _ _ He). eexists _, _. split; [reflexivity|].
    split.
    + exists (S j). unfold advance; cbn [with_i with_data d_i d_data d_datalen d_off].
      rewrite Hi2, Hd2, Hl2, Ho2, Hi, Hda, Hdl', Hoff.
      rewrite !int_wrap_id by (unfold INT_MIN, INT_MAX in *; lia).
      split_and!; try lia.
      rewrite fields_snoc, app_assoc.
      unfold spec_field at 2. rewrite Hc. rewrite Hi in Hg2. exact Hg2.
    + unfold advance; cbn [with_i with_data d_i d_data d_datalen d_off]. rewrite Hi2, Hi.
      rewrite int_wrap_id by (unfold INT_MIN, INT_MAX in *; lia). lia.
  - exists 0%nat. cbn [with_i d_i d_data d_datalen d_off seq fmap list_fmap concat].
    rewrite app_nil_r. split_and!; try lia. exact Hg.
  - cbn [with_i d_i]. lia.
  - exists s', w'. split; [exact Hrun|].
    apply andb_false_iff in Hexit.
    assert (j = length chunk) as ->.
    { destruct Hexit as [Hz | Hge].
      - apply negb_false_iff, Z.eqb_eq in Hz.
        destruct (Nat.lt_ge_cases (length chunk) 16); [specialize (Hshort H)|]; lia.
      - apply Z.ltb_ge in Hge. lia. }
    auto.
Qed.

Lemma at_hand_same chunk s s' :
  d_data s' = d_data s -> d_datalen s' = d_datalen s ->
  at_hand obj chunk s -> at_hand obj chunk s'.
Proof. unfold at_hand. intros -> ->. auto. Qed.

Lemma pad_loop_ok ideal chunk s w :
  (length chunk <= 16)%nat -> d_i s = Z.of_nat (length chunk) ->
  good size w0 (ideal ++ concat (spec_field chunk <$> seq 0 (length chunk))) s w ->
  exists s' w', pad_loop pf size s w = Ret s' w'
    /\ good size w0 (ideal ++ concat (spec_field chunk <$> seq 0 16)) s' w'
    /\ d_data s' = d_data s /\ d_datalen s' = d_datalen s /\ d_off s' = d_off s.
Proof.
  intros Hm Hi0 Hg. unfold pad_loop.
  set (I := fun (s' : dump_state) (w' : world) =>
    exists j : nat, (length chunk <= j <= 16)%nat /\ d_i s' = Z.of_nat j
      /\ d_data s' = d_data s /\ d_datalen s' = d_datalen s /\ d_off s' = d_off s
      /\ good size w0 (ideal ++ concat (spec_field chunk <$> seq 0 j)) s' w').
  destruct (while_rule I (fun s' => Z.to_nat (16 - d_i s'))
              (fun s => d_i s <? 16)
              (fun s => do s1 <- emit pf size (txt "  " ++ sep (d_i s)) s;
                        ret (with_i (int_wrap (d_i s1 + 1)) s1)))
    with (fuel := 16%nat) (s := s) (w := w)
    as (s' & w' & Hrun & (j & Hj & Hi & Hda & Hdl' & Hoff & Hg') & Hexit).
  - intros s1 w1 (j & Hj & Hi & Hda & Hdl' & Hoff & Hg1) Hlt.
    apply Z.ltb_lt in Hlt.
    destruct (emit_ok _ (txt "  " ++ sep (d_i s1)) _ _ Hg1)
      as (s2 & w2 & He & Hg2 & Hd2 & Hl2 & Hi2 & Ho2).
    rewrite (bind_step _ _ _ _ _ He). eexists _, _. split; [reflexivity|].
    split.
    + exists (S j). cbn [with_i d_i d_data d_datalen d_off].
      rewrite Hi2, Hd2, Hl2, Ho2, Hi.
      rewrite !int_wrap_id by (unfold INT_MIN, INT_MAX in *; lia).
      split_and!; try lia; try assumption.
      rewrite fields_snoc, app_assoc. unfold spec_field at 2.
      rewrite (lookup_ge_None_2 chunk j) by lia. rewrite Hi in Hg2. exact Hg2.
    + cbn [with_i d_i]. rewrite Hi2, Hi.
      rewrite !int_wrap_id by (unfold INT_MIN, INT_MAX in *; lia). lia.
  - exists (length chunk). split_and!; try lia; try reflexivity. exact Hg.
  - rewrite Hi0. lia.
  - exists s', w'. split; [exact Hrun|].
    apply Z.ltb_ge in Hexit. assert (j = 16%nat) as -> by lia. auto.
Qed.

Lemma gutter_loop_ok ideal chunk s w :
  good size w0 ideal s w -> at_hand obj chunk s ->
  exists s' w', gutter_loop pf obj size s w = Ret s' w'
    /\ good size w0 (ideal ++ spec_gutter chunk) s' w'
    /\ d_data s' = d_data s + Z.of_nat (length chunk)
    /\ d_datalen s' = d_datalen s - Z.of_nat (length chunk)
    /\ d_off s' = d_off s.
Proof.
  intros Hg (Hm & Hd0 & Hdl & Hshort & Hobj). unfold gutter_loop.
  set (I := fun (s' : dump_state) (w' : world) =>
    exists j : nat, (j <= length chunk)%nat /\ d_i s' = Z.of_nat j
      /\ d_data s' = d_data s + Z.of_nat j
      /\ d_datalen s' = d_datalen s - Z.of_nat j
      /\ d_off s' = d_off s
      /\ good size w0 (ideal ++ spec_gutter (take j chunk)) s' w').
  destruct (while_rule I (fun s' => Z.to_nat (16 - d_i s'))
              (fun s => negb (d_datalen s =? 0) && (d_i s <? 16))
              (fun s => do c0 <- index obj (d_data s);
                        let c := if isprint c0 then c0 else "."%char in
                        do s1 <- emit pf size [c] s;
                        ret (advance s1)))
    with (fuel := 16%nat) (s := with_i 0 s) (w := w)
    as (s' & w' & Hrun & (j & Hj & Hi & Hda & Hdl' & Hoff & Hg') & Hexit).
  - intros s1 w1 (j & Hj & Hi & Hda & Hdl' & Hoff & Hg1) Hcond.
    apply andb_true_iff in Hcond as [Hne Hlt].
    apply negb_true_iff, Z.eqb_neq in Hne. apply Z.ltb_lt in Hlt.
    assert (j < length chunk)%nat as Hjm by lia.
    destruct (lookup_lt_is_Some_2 chunk j Hjm) as [c Hc].
    rewrite (bind_step _ _ _ _ _
               (index_ok obj (d_data s1) c w1 ltac:(lia)
                  ltac:(rewrite Hda; now apply Hobj))).
    cbv zeta.
    destruct (emit_ok _ [if isprint c then c else "."%char] _ _ Hg1)
      as (s2 & w2 & He & Hg2 & Hd2 & Hl2 & Hi2 & Ho2).
    rewrite (bind_step _ _ _ _ _ He). eexists _, _. split; [reflexivity|].
    split.
    + exists (S j). unfold advance; cbn [with_i with_data d_i d_data d_datalen d_off].
      rewrite Hi2, Hd2, Hl2, Ho2, Hi, Hda, Hdl', Hoff.
      rewrite !int_wrap_id by (unfold INT_MIN, INT_MAX in *; lia).
      split_and!; try lia.
      rewrite (take_S_r _ _ _ Hc). unfold spec_gutter in *.
      rewrite fmap_app, app_assoc. exact Hg2.
    + unfold advance; cbn [with_i with_data d_i]. rewrite Hi2, Hi.
      rewrite !int_wrap_id by (unfold INT_MIN, INT_MAX in *; lia). lia.
  - exists 0%nat. cbn [with_i d_i d_data d_datalen d_off].
    change (spec_gutter (take 0 chunk)) with (@nil ascii).
    rewrite app_nil_r. split_and!; try lia. exact Hg.
  - cbn [with_i d_i]. lia.
  - exists s', w'. split; [exact Hrun|].
    apply andb_false_iff in Hexit.
    assert (j = length chunk) as ->.
    { destruct Hexit as [Hz | Hge].
      - apply negb_false_iff, Z.eqb_eq in Hz.
        destruct (Nat.lt_ge_cases (length chunk) 16); [specialize (Hshort H)|]; lia.
      - apply Z.ltb_ge in Hge. lia. }
    rewrite take_ge in Hg' by lia. auto.
Qed.

Lemma dump_row_ok ideal chunk (k : nat) s w :
  good size w0 ideal s w -> at_hand obj chunk s ->
  d_off s = 16 * Z.of_nat k -> 16 * Z.of_nat k + 16 <= INT_MAX ->
  exists s' w', dump_row pf obj size s w = Ret s' w'
    /\ good size w0 (ideal ++ spec_row k chunk) s' w'
    /\ d_data s' = d_data s + Z.of_nat (length chunk)
    /\ d_datalen s' = d_datalen s - Z.of_nat (length chunk)
    /\ d_off s' = 16 * Z.of_nat (S k).
Proof.
  intros Hg Hat Hoff Hk. unfold dump_row.
  destruct (emit_ok _ (fmt_08x (d_off s) ++ txt "  ") _ _ Hg)
    as (s1 & w1 & He1 & Hg1 & Hd1 & Hl1 & Hi1 & Ho1).
  rewrite (bind_step _ _ _ _ _ He1). cbv zeta.
  pose proof (at_hand_same _ _ _ Hd1 Hl1 Hat) as Hat1.
  destruct (hex_loop_ok _ chunk _ _ Hg1 Hat1)
    as (s2 & w2 & He2 & Hg2 & Hi2 & Hd2 & Hl2 & Ho2).
  rewrite (bind_step _ _ _ _ _ He2).
  destruct (pad_loop_ok _ chunk _ _ ltac:(apply Hat) Hi2 Hg2)
    as (s3 & w3 & He3 & Hg3 & Hd3 & Hl3 & Ho3).
  rewrite (bind_step _ _ _ _ _ He3).
  set (s4 := with_data (d_data s1) (d_datalen s1) s3).
  assert (good size w0 ((ideal ++ fmt_08x (d_off s) ++ txt "  ")
                          ++ concat (spec_field chunk <$> seq 0 16)) s4 w3) as Hg4
    by exact Hg3.
  assert (at_hand obj chunk s4) as Hat4
    by (apply (at_hand_same chunk s1); [reflexivity | reflexivity | exact Hat1]).
  destruct (emit_ok _ (txt "  |") _ _ Hg4)
    as (s5 & w5 & He5 & Hg5 & Hd5 & Hl5 & Hi5 & Ho5).
  rewrite (bind_step _ _ _ _ _ He5).
  pose proof (at_hand_same _ _ _ Hd5 Hl5 Hat4) as Hat5.
  destruct (gutter_loop_ok _ chunk _ _ Hg5 Hat5)
    as (s6 & w6 & He6 & Hg6 & Hd6 & Hl6 & Ho6).
  rewrite (bind_step _ _ _ _ _ He6).
  destruct (emit_ok _ (txt "|" ++ [NL]) _ _ Hg6)
    as (s7 & w7 & He7 & Hg7 & Hd7 & Hl7 & Hi7 & Ho7).
  rewrite (bind_step _ _ _ _ _ He7).
  eexists _, _. split; [reflexivity|].
  cbn [with_off d_data d_datalen d_off].
  assert (d_off s7 = 16 * Z.of_nat k) as Ho.
  { rewrite Ho7, Ho6, Ho5. unfold s4. cbn [with_data d_off]. now rewrite Ho3, Ho2, Ho1. }
  rewrite Ho, int_wrap_id by (unfold INT_MIN, INT_MAX in *; lia).
  split_and!.
  - unfold spec_row. unfold fmt_08x in Hg7.
    rewrite Hoff, uint_wrap_id in Hg7 by (unfold INT_MAX in *; lia).
    rewrite <- !app_assoc in Hg7. exact Hg7.
  - rewrite Hd7, Hd6, Hd5. unfold s4. cbn [with_data d_data]. now rewrite Hd1.
  - rewrite Hl7, Hl6, Hl5. unfold s4. cbn [with_data d_datalen]. now rewrite Hl1.
  - lia.
Qed.

End HexdumpProofs.

(** ** The shape of the specified dump *)

Lemma length_chunks n data : length (chunks n data) = n.
Proof. revert data. induction n as [|n IH]; intros data; simpl; [|rewrite IH]; reflexivity. Qed.

Lemma chunks_S k data :
  chunks (S k) data = chunks k data ++ [take 16 (drop (16 * k) data)].
Proof.
  revert data. induction k as [|k IH]; intros data.
  - reflexivity.
  - change (chunks (S (S k)) data) with (take 16 data :: chunks (S k) (drop 16 data)).
    rewrite IH, drop_drop. simpl chunks.
    now replace (16 + 16 * k)%nat with (16 * S k)%nat by lia.
Qed.

Lemma spec_rows_S k data :
  spec_rows (S k) data
  = spec_rows k data ++ [spec_row k (take 16 (drop (16 * k) data))].
Proof.
  unfold spec_rows. rewrite chunks_S, imap_app, length_chunks. simpl.
  now rewrite Nat.add_0_r.
Qed.

Lemma spec_rows_prefix k K data :
  (k <= K)%nat ->
  exists rest, concat (spec_rows K data) = concat (spec_rows k data) ++ rest.
Proof.
  induction 1 as [|K Hle [rest IH]].
  - exists []. now rewrite app_nil_r.
  - rewrite spec_rows_S, concat_app, IH, <- app_assoc. eauto.
Qed.

Lemma length_hex_digits w n : length (hex_digits w n) = w.
Proof.
  revert n. induction w as [|w IH]; intros n; simpl; [reflexivity|].
  rewrite length_app, IH. simpl. lia.
Qed.

Lemma length_spec_field chunk j :
  length (spec_field chunk j) = (2 + length (sep (Z.of_nat j)))%nat.
Proof.
  unfold spec_field. rewrite length_app. f_equal.
  destruct (chunk !! j); [apply length_hex_digits | reflexivity].
Qed.

Lemma length_spec_row k chunk : length (spec_row k chunk) = (64 + length chunk)%nat.
Proof.
  unfold spec_row, spec_gutter.
  cbn [seq fmap list_fmap concat].
  rewrite !length_app, !length_spec_field, length_hex_digits, length_fmap.
  simpl. lia.
Qed.

Lemma length_spec_rows_ge k data :
  (64 * k <= length (concat (spec_rows k data)))%nat.
Proof.
  induction k as [|k IH]; [simpl; lia|].
  rewrite spec_rows_S, concat_app, length_app. cbn [concat].
  rewrite app_nil_r, length_spec_row. lia.
Qed.

Lemma length_spec_rows_le k data :
  (length (concat (spec_rows k data)) <= 80 * k)%nat.
Proof.
  induction k as [|k IH]; [simpl; lia|].
  rewrite spec_rows_S, concat_app, length_app. cbn [concat].
  rewrite app_nil_r, length_spec_row, length_take. lia.
Qed.

Lemma row_count_spec n :
  (n <= 16 * row_count n /\ 16 * row_count n < n + 16)%nat.
Proof.
  unfold row_count.
  pose proof (Nat.div_mod_eq (n + 15) 16) as H.
  pose proof (Nat.mod_upper_bound (n + 15) 16 ltac:(lia)). lia.
Qed.

(** ** The outer loop of [_log_hexdump] *)

Section DumpProofs.

Variable pf : platform.

Lemma chunk_at_hand obj (N k : nat) s :
  (N <= length obj)%nat -> Z.of_nat N <= INT_MAX -> (16 * k < N)%nat ->
  d_data s = 16 * Z.of_nat k -> d_datalen s = Z.of_nat N - 16 * Z.of_nat k ->
  at_hand obj (take 16 (drop (16 * k) (take N obj))) s.
Proof.
  intros HN Hmax Hk Hd Hl. unfold at_hand.
  rewrite length_take, length_drop, length_take, Hd, Hl.
  split_and!; try lia.
  intros j c Hc. apply lookup_take_Some in Hc as [Hc _].
  rewrite lookup_drop in Hc. apply lookup_take_Some in Hc as [Hc _].
  now replace (Z.to_nat (16 * Z.of_nat k + Z.of_nat j)) with (16 * k + j)%nat by lia.
Qed.

(** The outer loop prints the specified dump, cut to [size - 1] bytes. *)
Lemma dump_loop_ok obj (N : nat) size w0 s0 :
  1 <= size <= INT_MAX ->
  (N <= length obj)%nat -> Z.of_nat N <= INT_MAX ->
  d_data s0 = 0 -> d_datalen s0 = Z.of_nat N -> d_off s0 = 0 ->
  printed size (d_buf s0) (d_len s0) [] ->
  exists s' w',
    while (Z.to_nat size)
      (fun s => negb (d_datalen s =? 0) && (d_len s <? size - 1))
      (dump_row pf obj size) s0 w0 = Ret s' w'
    /\ good size w0 (spec_hexdump (take N obj)) s' w'.
Proof.
  intros Hsize HN Hmax Hd0 Hl0 Ho0 Hp0.
  set (data := take N obj).
  set (I := fun (s : dump_state) (w : world) =>
    exists k : nat, (k <= row_count N)%nat
      /\ d_off s = 16 * Z.of_nat k
      /\ d_data s = Z.min (16 * Z.of_nat k) (Z.of_nat N)
      /\ d_datalen s = Z.of_nat N - d_data s
      /\ good size w0 (concat (spec_rows k data)) s w).
  destruct (while_rule I (fun s => Z.to_nat (size - d_len s))
              (fun s => negb (d_datalen s =? 0) && (d_len s <? size - 1))
              (dump_row pf obj size))
    with (fuel := Z.to_nat size) (s := s0) (w := w0)
    as (s' & w' & Hrun & (k & Hk & Hoff & Hda & Hdl & Hg) & Hexit).
  - intros s w (k & Hk & Hoff & Hda & Hdl & Hg) Hcond.
    apply andb_true_iff in Hcond as [Hne Hlt].
    apply negb_true_iff, Z.eqb_neq in Hne. apply Z.ltb_lt in Hlt.
    assert (16 * k < N)%nat as HkN by lia.
    assert (d_data s = 16 * Z.of_nat k) as Hda' by lia.
    pose proof (length_spec_rows_ge k data) as Hge.
    assert (d_len s = Z.of_nat (length (concat (spec_rows k data)))) as Hlen.
    { destruct Hg as [_ [_ Hlen]]. rewrite length_take in Hlen. lia. }
    destruct (dump_row_ok pf obj size Hsize w0 _
                (take 16 (drop (16 * k) data)) k s w Hg)
      as (s1 & w1 & Hrow & Hg1 & Hd1 & Hl1 & Ho1);
      [apply chunk_at_hand; [assumption | assumption | assumption | assumption | lia]
      | assumption | unfold INT_MAX in *; lia |].
    exists s1, w1. split; [exact Hrow|].
    assert (length (take 16 (drop (16 * k) data)) = Nat.min 16 (N - 16 * k)) as Hcl
      by (unfold data; rewrite length_take, length_drop, length_take; lia).
    split.
    + exists (S k). split_and!.
      * pose proof (row_count_spec N). lia.
      * exact Ho1.
      * rewrite Hd1, Hcl. lia.
      * rewrite Hl1, Hd1, Hdl. lia.
      * rewrite spec_rows_S, concat_app. cbn [concat]. rewrite app_nil_r. exact Hg1.
    + destruct Hg1 as [_ [_ Hlen1]]. rewrite Hlen1, Hlen.
      rewrite length_take, length_app, length_spec_row. lia.
  - exists 0%nat. split_and!; try lia. split; [apply clobbered_refl | exact Hp0].
  - destruct Hp0 as [_ ->]. rewrite take_nil. simpl. lia.
  - exists s', w'. split; [exact Hrun|].
    apply andb_false_iff in Hexit. unfold spec_hexdump. fold data.
    assert (length data = N) as HlenN by (unfold data; rewrite length_take; lia).
    rewrite HlenN.
    destruct Hexit as [Hz | Hfull].
    + apply negb_false_iff, Z.eqb_eq in Hz. pose proof (row_count_spec N).
      assert (k = row_count N) as <- by lia. exact Hg.
    + apply Z.ltb_ge in Hfull.
      destruct (spec_rows_prefix k (row_count N) data Hk) as [rest Hrest].
      destruct Hg as [Hc [Hw Hlen]]. split; [exact Hc|].
      assert (Z.to_nat (size - 1) <= length (concat (spec_rows k data)))%nat as Hlong
        by (rewrite length_take in Hlen; lia).
      unfold printed. rewrite Hrest, take_app_le by exact Hlong. now split.
Qed.

(** An emitting call of [_log_hexdump] hands the target, in one write,
    the specified dump of the first [datalen] bytes, cut to
    [8 * LOG_MAX_LEN - 1] bytes; nothing else changes. *)
Lemma _log_hexdump_emits dl lg lvl obj datalen w :
  1 <= LOG_MAX_LEN pf -> 8 * LOG_MAX_LEN pf <= INT_MAX ->
  logger dl = Some lg -> lvl <= level dl ->
  0 <= datalen <= INT_MAX -> datalen <= Z.of_nat (length obj) ->
  _log_hexdump pf dl lvl obj datalen w
    = Ret tt (set_log_out
                (log_out w ++ [(lg, take (Z.to_nat (8 * LOG_MAX_LEN pf - 1))
                                      (spec_hexdump (take (Z.to_nat datalen) obj)))])
                w).
Proof.
  intros Hpos Hmax Hlg Hlvl Hdl Hobj. unfold _log_hexdump. rewrite Hlg.
  destruct (level dl <? lvl) eqn:E; [apply Z.ltb_lt in E; lia|]. clear E.
  rewrite (bind_step _ _ _ _ _ (get_errno_ok w)).
  rewrite int_wrap_id by (unfold INT_MIN, INT_MAX in *; lia).
  set (size := 8 * LOG_MAX_LEN pf) in *.
  destruct (dump_loop_ok obj (Z.to_nat datalen) size w
              {| d_data := 0; d_datalen := datalen; d_i := 0; d_off := 0;
                 d_len := 0; d_buf := alloca size |})
    as (s' & w' & Hrun & [[e ->] Hp]);
    [lia | lia | lia | reflexivity | simpl; lia | reflexivity
    | apply printed_alloca; lia |].
  rewrite (bind_step _ _ _ _ _ Hrun).
  destruct Hp as [Hw ->].
  rewrite (bind_step _ _ _ _ _ (load_bytes_ok _ _ _ _ Hw)).
  reflexivity.
Qed.

End DumpProofs.

(** ** The level filter *)

Lemma severity_name l : severity l -> exists name, level_str !! Z.to_nat l = Some name.
Proof.
  intros [H0 H7].
  assert (l = 0 \/ l = 1 \/ l = 2 \/ l = 3 \/ l = 4 \/ l = 5 \/ l = 6 \/ l = 7)
    as Hl by lia.
  repeat (destruct Hl as [-> | Hl]; [eexists; reflexivity|]).
  subst. eexists; reflexivity.
Qed.

Lemma set_log_out_neq w x : set_log_out (log_out w ++ [x]) w <> w.
Proof.
  intros H. apply (f_equal log_out) in H. simpl in H.
  apply (f_equal length) in H. rewrite length_app in H. simpl in H. lia.
Qed.

Lemma not_both pf dl lg file line lvl msg w :
  emitted pf dl lg file line lvl msg w -> ~ skipped pf dl file line lvl msg w.
Proof.
  intros [bytes He] Hs. unfold skipped in Hs. rewrite He in Hs.
  injection Hs as Hs. now apply set_log_out_neq in Hs.
Qed.

Lemma filtered_out pf dl lg file line lvl msg w :
  logger dl = Some lg -> level dl < lvl -> skipped pf dl file line lvl msg w.
Proof.
  intros Hlg Hlt. unfold skipped, _log. rewrite Hlg.
  destruct (level dl <? lvl) eqn:E; [reflexivity | apply Z.ltb_ge in E; lia].
Qed.

Lemma passes pf dl lg file line lvl msg w :
  1 <= LOG_MAX_LEN pf <= INT_MAX -> logger dl = Some lg ->
  severity lvl -> lvl <= level dl -> emitted pf dl lg file line lvl msg w.
Proof.
  intros Hsize Hlg Hsev Hle. destruct (severity_name lvl Hsev) as [name Hname].
  eexists. apply _log_emits with (name := name); try assumption. apply Hsev.
Qed.

(** C1 (as amended). On an active logger with threshold [level dl], a
    write at severity [L] is skipped exactly when [level dl < L] and is
    emitted, as one write to the target, exactly when [L <= level dl];
    so for severities [S1 < S2] a write at [S2] under threshold [S1] is
    suppressed and a write at [S1] is emitted, and a write at ALWAYS
    (level 0) is emitted under every non-negative threshold. *)
Theorem log_level_filter pf dl lg file line msg w :
  1 <= LOG_MAX_LEN pf <= INT_MAX -> logger dl = Some lg ->
  (forall L, severity L ->
     (skipped pf dl file line L msg w <-> level dl < L) /\
     (emitted pf dl lg file line L msg w <-> L <= level dl)) /\
  (forall S1 S2, severity S1 -> severity S2 -> S1 < S2 -> level dl = S1 ->
     skipped pf dl file line S2 msg w /\ emitted pf dl lg file line S1 msg w) /\
  (0 <= level dl -> emitted pf dl lg file line 0 msg w).
Proof.
  intros Hsize Hlg. split_and!.
  - intros L HL. split; split.
    + intros Hs. destruct (Z.lt_ge_cases (level dl) L) as [|Hge]; [assumption|].
      exfalso. apply (not_both pf dl lg file line L msg w); [|exact Hs].
      apply passes; [assumption | assumption | assumption | lia].
    + now apply (filtered_out pf dl lg).
    + intros He. destruct (Z.lt_ge_cases (level dl) L) as [Hlt|Hge]; [|lia].
      exfalso. apply (not_both pf dl lg file line L msg w); [exact He|].
      now apply (filtered_out pf dl lg).
    + intros Hle. now apply passes.
  - intros S1 S2 H1 H2 Hlt Hdl. split.
    + apply (filtered_out pf dl lg); [assumption | lia].
    + apply passes; [assumption | assumption | assumption | lia].
  - intros H0. apply passes; [assumption | assumption | unfold severity; lia | assumption].
Qed.

Lemma log_level_filter_witness :
  skipped example_platform warn_logger (txt "a.c") 12 4 (txt "hello") example_world
  /\ emitted example_platform warn_logger 1%nat (txt "a.c") 12 3 (txt "hello") example_world.
Proof.
  apply (proj1 (proj2 (log_level_filter example_platform warn_logger 1%nat
                         (txt "a.c") 12 (txt "hello") example_world
                         ltac:(vm_compute; split; discriminate) eq_refl))
           3 4); unfold severity; simpl; lia.
Defined.

(** C1, as stated, fails where the two severities coincide: under
    threshold WARN a write at WARN is not suppressed. *)
Lemma log_level_equal_counterexample :
  severity 3 /\ 3 <= 3 /\ level warn_logger = 3 /\
  _log example_platform warn_logger (txt "a.c") 12 3 (txt "hello") example_world
    = Ret tt (set_log_out
                [(1%nat, txt "[Sun Sep 16 01:03:52 1973][WARN] a.c:12 hello" ++ [NL])]
                example_world) /\
  ~ skipped example_platform warn_logger (txt "a.c") 12 3 (txt "hello") example_world.
Proof.
  assert (_log example_platform warn_logger (txt "a.c") 12 3 (txt "hello") example_world
    = Ret tt (set_log_out
                [(1%nat, txt "[Sun Sep 16 01:03:52 1973][WARN] a.c:12 hello" ++ [NL])]
                example_world)) as H by (vm_compute; reflexivity).
  split_and!; [unfold severity; lia | lia | reflexivity | exact H |].
  unfold skipped. rewrite H. intros E.
  apply (f_equal (fun o => match o with Ret _ w' => log_out w' | _ => [] end)) in E.
  discriminate E.
Qed.

(** ** The line buffer *)

Lemma bind_fault {A B} (m : M A) (k : A -> M B) w f :
  m w = Fault f -> bind m k w = Fault f.
Proof. unfold bind. intros ->. reflexivity. Qed.

Lemma index_result {A} (arr : list A) (i : Z) w :
  (exists x, 0 <= i /\ arr !! Z.to_nat i = Some x /\ index arr i w = Ret x w)
  \/ index arr i w = Fault BadRead.
Proof.
  unfold index. destruct (0 <=? i) eqn:E; [|now right].
  apply Z.leb_le in E. destruct (arr !! Z.to_nat i) as [x|] eqn:Hx; [|now right].
  left. exists x. auto.
Qed.

(** C3. With a buffer of [LOG_MAX_LEN] bytes, no call of [_log] stores
    outside it, whatever the file, line, level and message are; an
    emitting call returns, and the line it hands to the target, header
    and message cut to [LOG_MAX_LEN - 1] characters plus the newline, has
    at most [LOG_MAX_LEN] bytes. *)
Theorem log_buffer_safe pf dl file line lvl msg w :
  1 <= LOG_MAX_LEN pf <= INT_MAX ->
  _log pf dl file line lvl msg w <> Fault BufferOverrun /\
  (forall lg, logger dl = Some lg -> lvl <= level dl -> severity lvl ->
     exists bytes,
       _log pf dl file line lvl msg w
         = Ret tt (set_log_out (log_out w ++ [(lg, bytes)]) w)
       /\ Z.of_nat (length bytes) <= LOG_MAX_LEN pf
       /\ exists name, level_str !! Z.to_nat lvl = Some name
          /\ bytes = take (Z.to_nat (LOG_MAX_LEN pf - 1))
                       (log_header pf name file line ++ msg) ++ [NL]).
Proof.
  intros Hsize. split.
  - destruct (logger dl) as [lg|] eqn:Hlg; [|unfold _log; now rewrite Hlg].
    destruct (Z.lt_ge_cases (level dl) lvl) as [Hlt|Hge].
    + pose proof (filtered_out pf dl lg file line lvl msg w Hlg Hlt) as Hs.
      unfold skipped in Hs. now rewrite Hs.
    + destruct (index_result level_str lvl
                  (set_errno (errno_after pf "asctime"
                     (errno_after pf "localtime"
                        (errno_after pf "time" (errno w)))) w))
        as [(name & H0 & Hname & _) | Hbad].
      * rewrite (_log_emits pf dl lg file line lvl msg name w) by (assumption || lia).
        discriminate.
      * unfold _log. rewrite Hlg.
        destruct (level dl <? lvl) eqn:E; [discriminate|].
        rewrite (bind_step _ _ _ _ _ (get_errno_ok w)).
        rewrite (bind_step _ _ _ _ _ (asctime_now_ok pf w)).
        rewrite (bind_fault _ _ _ _ Hbad). discriminate.
  - intros lg Hlg Hle Hsev. destruct (severity_name lvl Hsev) as [name Hname].
    eexists. split; [apply _log_emits with (name := name); try assumption; apply Hsev|].
    split; [|eauto].
    rewrite length_app, length_take. simpl. lia.
Qed.

Lemma log_buffer_safe_witness :
  _log example_platform (dlog example_world) (txt "a.c") 12 3 (txt "hello")
    example_world <> Fault BufferOverrun.
Proof.
  apply (log_buffer_safe example_platform (dlog example_world) (txt "a.c") 12 3
           (txt "hello") example_world).
  vm_compute. split; discriminate.
Defined.

(** ** The inactive logger and the empty dump *)

(** C6. With no target (a NULL logger handle) every call of [_log] and of
    [_log_hexdump] returns at once: no fault, no write, and the whole
    process state, the logger included, as it was. *)
Theorem null_logger_noop pf dl file line lvl msg obj datalen w :
  logger dl = None ->
  _log pf dl file line lvl msg w = Ret tt w /\
  _log_hexdump pf dl lvl obj datalen w = Ret tt w.
Proof.
  intros Hnull. unfold _log, _log_hexdump. rewrite Hnull. split; reflexivity.
Qed.

Lemma null_logger_noop_witness :
  _log example_platform null_logger (txt "a.c") 12 0 (txt "hello") example_world
    = Ret tt example_world /\
  _log_hexdump example_platform null_logger 0 (txt "A") 1 example_world
    = Ret tt example_world.
Proof.
  apply (null_logger_noop example_platform null_logger (txt "a.c") 12 0
           (txt "hello") (txt "A") 1 example_world).
  reflexivity.
Defined.

Lemma while_exit {S} fuel (cond : S -> bool) body s w :
  cond s = false -> while fuel cond body s w = Ret s w.
Proof. intros H. destruct fuel; simpl; now rewrite H. Qed.

(** C10. A hex dump of length 0 at a passing level renders no row and
    still issues exactly one write, of zero bytes, to the target. *)
Theorem hexdump_empty pf dl lg lvl obj w :
  logger dl = Some lg -> lvl <= level dl ->
  _log_hexdump pf dl lvl obj 0 w
    = Ret tt (set_log_out (log_out w ++ [(lg, [])]) w).
Proof.
  intros Hlg Hle. unfold _log_hexdump. rewrite Hlg.
  destruct (level dl <? lvl) eqn:E; [apply Z.ltb_lt in E; lia|].
  rewrite (bind_step _ _ _ _ _ (get_errno_ok w)).
  erewrite bind_step; [|apply while_exit; reflexivity].
  cbn [d_buf d_len].
  assert (load_bytes (alloca (8 * LOG_MAX_LEN pf)) 0 w = Ret [] w) as Hload.
  { unfold load_bytes.
    destruct (Z.leb_spec 0 (Z.of_nat (length (alloca (8 * LOG_MAX_LEN pf))))); [|lia].
    reflexivity. }
  rewrite (bind_step _ _ _ _ _ Hload). reflexivity.
Qed.

Lemma hexdump_empty_witness :
  _log_hexdump example_platform (dlog example_world) 3 [] 0 example_world
    = Ret tt (set_log_out [(1%nat, [])] example_world).
Proof.
  apply (hexdump_empty example_platform (dlog example_world) 1%nat 3 [] example_world).
  - reflexivity.
  - simpl. lia.
Defined.

(** ** errno *)

Lemma put_errno_last {A} (m : M A) e w u w' :
  bind m (fun _ => put_errno e) w = Ret u w' -> errno w' = e.
Proof.
  intros H. apply bind_Ret in H as (a & w1 & _ & H).
  unfold put_errno in H. injection H as _ <-. reflexivity.
Qed.

Lemma _log_errno pf dl file line lvl msg w u w' :
  _log pf dl file line lvl msg w = Ret u w' -> errno w' = errno w.
Proof.
  unfold _log. destruct (logger dl) as [lg|]; [|intros H; now injection H as _ <-].
  destruct (level dl <? lvl); [intros H; now injection H as _ <-|].
  intros H.
  apply bind_Ret in H as (e & w1 & He & H). injection He as <- <-.
  apply bind_Ret in H as (timestr & w2 & _ & H).
  apply bind_Ret in H as (name & w3 & _ & H).
  apply bind_Ret in H as ([buf1 n1] & w4 & _ & H).
  apply bind_Ret in H as ([buf2 n2] & w5 & _ & H).
  apply bind_Ret in H as (buf3 & w6 & _ & H).
  apply bind_Ret in H as (bytes & w7 & _ & H).
  now apply put_errno_last in H.
Qed.

Lemma _log_hexdump_errno pf dl lvl obj datalen w u w' :
  _log_hexdump pf dl lvl obj datalen w = Ret u w' -> errno w' = errno w.
Proof.
  unfold _log_hexdump. destruct (logger dl) as [lg|]; [|intros H; now injection H as _ <-].
  destruct (level dl <? lvl); [intros H; now injection H as _ <-|].
  intros H.
  apply bind_Ret in H as (e & w1 & He & H). injection He as <- <-.
  apply bind_Ret in H as (s & w2 & _ & H).
  apply bind_Ret in H as (bytes & w3 & _ & H).
  now apply put_errno_last in H.
Qed.

(** C9. After a call of [_log] or of [_log_hexdump] the caller finds
    errno as it was before the call: the early returns do not touch it,
    and the emitting path saves it on entry and restores it after the
    write, whatever the library calls in between left there.  Calls with
    a severity as level and with [datalen] bytes behind [data] do
    return. *)
Theorem errno_preserved pf dl file line lvl msg obj datalen w :
  1 <= LOG_MAX_LEN pf -> 8 * LOG_MAX_LEN pf <= INT_MAX ->
  (forall w', _log pf dl file line lvl msg w = Ret tt w' -> errno w' = errno w) /\
  (forall w', _log_hexdump pf dl lvl obj datalen w = Ret tt w' -> errno w' = errno w) /\
  (severity lvl -> exists w', _log pf dl file line lvl msg w = Ret tt w') /\
  (0 <= datalen <= INT_MAX -> datalen <= Z.of_nat (length obj) ->
     exists w', _log_hexdump pf dl lvl obj datalen w = Ret tt w').
Proof.
  intros Hpos Hmax. split_and!.
  - intros w'. apply _log_errno.
  - intros w'. apply _log_hexdump_errno.
  - intros Hsev. destruct (logger dl) as [lg|] eqn:Hlg;
      [|eexists; unfold _log; rewrite Hlg; reflexivity].
    destruct (Z.lt_ge_cases (level dl) lvl) as [Hlt|Hge].
    + exists w. now apply (filtered_out pf dl lg).
    + destruct (passes pf dl lg file line lvl msg w) as [bytes Hb];
        [lia | assumption | assumption | lia | eauto].
  - intros Hd Hobj. destruct (logger dl) as [lg|] eqn:Hlg;
      [|eexists; unfold _log_hexdump; rewrite Hlg; reflexivity].
    destruct (Z.lt_ge_cases (level dl) lvl) as [Hlt|Hge].
    + exists w. unfold _log_hexdump. rewrite Hlg.
      destruct (level dl <? lvl) eqn:E; [reflexivity | apply Z.ltb_ge in E; lia].
    + eexists. apply _log_hexdump_emits with (lg := lg); assumption || lia.
Qed.

Lemma errno_preserved_witness :
  exists w',
    _log example_platform (dlog example_world) (txt "a.c") 12 3 (txt "hello")
      example_world = Ret tt w'
    /\ errno w' = errno example_world.
Proof.
  pose proof (errno_preserved example_platform (dlog example_world) (txt "a.c") 12 3
                (txt "hello") (txt "A") 1 example_world
                ltac:(vm_compute; discriminate) ltac:(vm_compute; discriminate))
    as (Hlog & _ & Hret & _).
  destruct (Hret ltac:(unfold severity; lia)) as [w' Hw'].
  exists w'. split; [exact Hw' | exact (Hlog w' Hw')].
Defined.

(** ** The log line *)

Lemma stamp_precision stamp :
  strlen stamp <= INT_MAX ->
  fmt_prec_s (int_wrap (strlen (stamp ++ [NL]) - 1)) (stamp ++ [NL]) = stamp.
Proof.
  unfold strlen, fmt_prec_s. intros H. rewrite length_app. simpl length.
  rewrite int_wrap_id by (unfold INT_MIN, INT_MAX in *; lia).
  destruct (Z.ltb_spec (Z.of_nat (length stamp + 1) - 1) 0); [lia|].
  replace (Z.to_nat (Z.of_nat (length stamp + 1) - 1)) with (length stamp) by lia.
  apply take_app_length.
Qed.

(** C5 (as amended). An emitting call of [_log] hands the target, in one
    write, the text [[<stamp>][<LEVEL-NAME>] <file>:<line> <message>] cut
    to [LOG_MAX_LEN - 1] bytes and followed by one newline, where
    [<stamp>] is what [asctime] gives without its trailing newline; a
    line of at most [LOG_MAX_LEN - 1] bytes is not cut. *)
Theorem log_line_format pf dl lg file line lvl msg name stamp w :
  1 <= LOG_MAX_LEN pf <= INT_MAX ->
  logger dl = Some lg -> lvl <= level dl ->
  0 <= lvl -> level_str !! Z.to_nat lvl = Some name ->
  asctime_localtime pf (time_now pf) = stamp ++ [NL] -> strlen stamp <= INT_MAX ->
  _log pf dl file line lvl msg w
    = Ret tt (set_log_out
                (log_out w ++ [(lg, take (Z.to_nat (LOG_MAX_LEN pf - 1))
                                      (spec_line stamp name file line msg) ++ [NL])])
                w)
  /\ (strlen (spec_line stamp name file line msg) < LOG_MAX_LEN pf ->
      take (Z.to_nat (LOG_MAX_LEN pf - 1)) (spec_line stamp name file line msg)
        = spec_line stamp name file line msg).
Proof.
  intros Hsize Hlg Hle H0 Hname Hstamp Hlen. split.
  - rewrite (_log_emits pf dl lg file line lvl msg name w) by assumption.
    unfold log_header, spec_line. rewrite Hstamp, stamp_precision by assumption.
    now rewrite <- !app_assoc.
  - unfold strlen. intros Hfit. apply take_ge. lia.
Qed.

Lemma log_line_format_witness :
  _log example_platform (dlog example_world) (txt "a.c") 12 3 (txt "hello")
    example_world
  = Ret tt (set_log_out
              [(1%nat, txt "[Sun Sep 16 01:03:52 1973][WARN] a.c:12 hello" ++ [NL])]
              example_world).
Proof.
  apply (proj1 (log_line_format example_platform (dlog example_world) 1%nat
                  (txt "a.c") 12 3 (txt "hello") (txt "WARN")
                  (txt "Sun Sep 16 01:03:52 1973") example_world
                  ltac:(vm_compute; split; discriminate) eq_refl
                  ltac:(vm_compute; discriminate) ltac:(vm_compute; discriminate)
                  eq_refl eq_refl ltac:(vm_compute; discriminate))).
Defined.

(** C5, as stated, fails for a message that does not fit: with
    [LOG_MAX_LEN = 2560] a message of 3000 characters yields a line of 2560
    bytes, not the 3041 bytes of the full form. *)
Lemma log_line_truncated_counterexample :
  exists bytes,
    _log example_platform (dlog example_world) (txt "a.c") 12 3 long_message
      example_world
      = Ret tt (set_log_out [(1%nat, bytes)] example_world)
    /\ length bytes = 2560%nat
    /\ length (spec_line (txt "Sun Sep 16 01:03:52 1973") (txt "WARN") (txt "a.c")
                 12 long_message ++ [NL]) = 3041%nat
    /\ bytes <> spec_line (txt "Sun Sep 16 01:03:52 1973") (txt "WARN") (txt "a.c")
                  12 long_message ++ [NL].
Proof.
  eexists. split.
  - rewrite (_log_emits example_platform (dlog example_world) 1%nat (txt "a.c") 12 3
               long_message (txt "WARN") example_world);
      [reflexivity | vm_compute; split; discriminate | reflexivity
      | vm_compute; discriminate | vm_compute; discriminate | reflexivity].
  - split_and!.
    + vm_compute. reflexivity.
    + vm_compute. reflexivity.
    + intros E. apply (f_equal length) in E. vm_compute in E. discriminate E.
Qed.

(** ** Rows and newlines *)

Lemma length_spec_rows K data : length (spec_rows K data) = K.
Proof. unfold spec_rows. now rewrite length_imap, length_chunks. Qed.

Lemma spec_rows_lookup K data k :
  (k < K)%nat ->
  spec_rows K data !! k = Some (spec_row k (take 16 (drop (16 * k) data))).
Proof.
  induction K as [|K IH]; intros Hk; [lia|].
  rewrite spec_rows_S. destruct (decide (k = K)) as [->|Hne].
  - rewrite lookup_app_r by (rewrite length_spec_rows; lia).
    now rewrite length_spec_rows, Nat.sub_diag.
  - rewrite lookup_app_l by (rewrite length_spec_rows; lia). apply IH. lia.
Qed.

Lemma count_nl_app a b : count_nl (a ++ b) = (count_nl a + count_nl b)%nat.
Proof. unfold count_nl. now rewrite List.filter_app, length_app. Qed.

Lemma hex_digit_not_nl d : Ascii.eqb NL (hex_digit d) = false.
Proof.
  unfold hex_digit. generalize (Z.to_nat d). intros n.
  do 17 (destruct n as [|n]; [reflexivity|]). reflexivity.
Qed.

Lemma count_nl_single c : Ascii.eqb NL c = false -> count_nl [c] = 0%nat.
Proof. unfold count_nl. cbn [List.filter]. now intros ->. Qed.

Lemma count_nl_hex_digits w n : count_nl (hex_digits w n) = 0%nat.
Proof.
  revert n. induction w as [|w IH]; intros n; [reflexivity|].
  cbn [hex_digits]. rewrite count_nl_app, IH.
  now rewrite count_nl_single by apply hex_digit_not_nl.
Qed.

Lemma count_nl_spec_field chunk j : count_nl (spec_field chunk j) = 0%nat.
Proof.
  unfold spec_field. rewrite count_nl_app.
  replace (count_nl (sep (Z.of_nat j))) with 0%nat
    by (unfold sep; destruct (Z.of_nat j =? 7); reflexivity).
  rewrite Nat.add_0_r.
  destruct (chunk !! j); [apply count_nl_hex_digits | reflexivity].
Qed.

Lemma count_nl_fields chunk (js : list nat) :
  count_nl (concat (spec_field chunk <$> js)) = 0%nat.
Proof.
  induction js as [|j js IH]; [reflexivity|].
  rewrite fmap_cons. cbn [concat]. now rewrite count_nl_app, count_nl_spec_field, IH.
Qed.

Lemma count_nl_spec_gutter chunk : count_nl (spec_gutter chunk) = 0%nat.
Proof.
  induction chunk as [|c chunk IH]; [reflexivity|].
  unfold spec_gutter. rewrite fmap_cons.
  change (count_nl ((if isprint c then c else "."%char) :: spec_gutter chunk) = 0%nat).
  change (?x :: ?t) with ([x] ++ t). rewrite count_nl_app, IH.
  destruct (isprint c) eqn:Hp; [|reflexivity].
  rewrite count_nl_single; [reflexivity|].
  destruct (Ascii.eqb_spec NL c) as [<-|]; [discriminate Hp | reflexivity].
Qed.

Lemma count_nl_spec_row k chunk : count_nl (spec_row k chunk) = 1%nat.
Proof.
  unfold spec_row.
  rewrite !count_nl_app, count_nl_hex_digits, count_nl_fields, count_nl_spec_gutter.
  reflexivity.
Qed.

Lemma count_nl_spec_rows K data : count_nl (concat (spec_rows K data)) = K.
Proof.
  induction K as [|K IH]; [reflexivity|].
  rewrite spec_rows_S, concat_app, count_nl_app, IH. cbn [concat].
  rewrite app_nil_r, count_nl_spec_row. lia.
Qed.

(** C4 (as amended). [_log_hexdump] hands the target, in one write, the
    rows of the dump cut to [8 * LOG_MAX_LEN - 1] bytes.  When the rows
    fit the output buffer ([80 * ceil(length / 16) < 8 * LOG_MAX_LEN])
    nothing is cut and exactly [ceil(length / 16)] rows are emitted.
    Row [k] starts with the offset [16 * k] as eight hexadecimal digits,
    whatever the number of bytes in the row, and its gutter has one
    character per byte of the row: [length mod 16] of them, or 16, in the
    last row. *)
Theorem hexdump_rows pf dl lg lvl obj datalen w :
  1 <= LOG_MAX_LEN pf -> 8 * LOG_MAX_LEN pf <= INT_MAX ->
  logger dl = Some lg -> lvl <= level dl ->
  0 <= datalen <= INT_MAX -> datalen <= Z.of_nat (length obj) ->
  let data := take (Z.to_nat datalen) obj in
  let n := length data in
  let rows := spec_rows (row_count n) data in
  _log_hexdump pf dl lvl obj datalen w
    = Ret tt (set_log_out
                (log_out w ++
                 [(lg, take (Z.to_nat (8 * LOG_MAX_LEN pf - 1)) (concat rows))])
                w)
  /\ (80 * Z.of_nat (row_count n) < 8 * LOG_MAX_LEN pf ->
      take (Z.to_nat (8 * LOG_MAX_LEN pf - 1)) (concat rows) = concat rows)
  /\ length rows = row_count n
  /\ (n <= 16 * row_count n < n + 16)%nat
  /\ count_nl (concat rows) = row_count n
  /\ (forall k, (k < row_count n)%nat ->
        let chunk := take 16 (drop (16 * k) data) in
        rows !! k
          = Some (hex_digits 8 (16 * Z.of_nat k) ++ txt "  "
                    ++ concat (spec_field chunk <$> seq 0 16)
                    ++ txt "  |" ++ spec_gutter chunk ++ txt "|" ++ [NL])
        /\ length (spec_gutter chunk) = Nat.min 16 (n - 16 * k))
  /\ (forall k, S k = row_count n ->
        length (spec_gutter (take 16 (drop (16 * k) data)))
          = if (n mod 16 =? 0)%nat then 16%nat else (n mod 16)%nat).
Proof.
  intros Hpos Hmax Hlg Hle Hd Hobj data n rows.
  assert (forall k, length (spec_gutter (take 16 (drop (16 * k) data)))
                    = Nat.min 16 (n - 16 * k)) as Hgut.
  { intros k. unfold spec_gutter. rewrite length_fmap, length_take, length_drop.
    reflexivity. }
  pose proof (row_count_spec n) as Hrc.
  split_and!.
  - now rewrite (_log_hexdump_emits pf dl lg lvl obj datalen w) by assumption.
  - intros Hfit. apply take_ge.
    pose proof (length_spec_rows_le (row_count n) data) as Hlen.
    fold rows in Hlen. lia.
  - apply length_spec_rows.
  - lia.
  - lia.
  - apply count_nl_spec_rows.
  - intros k Hk chunk. split; [|apply Hgut].
    unfold rows. now rewrite spec_rows_lookup.
  - intros k Hk. rewrite Hgut.
    pose proof (Nat.div_mod_eq n 16) as Hdm.
    pose proof (Nat.mod_upper_bound n 16 ltac:(lia)) as Hub.
    destruct (Nat.eqb_spec (n mod 16) 0); lia.
Qed.

Lemma hexdump_rows_witness :
  _log_hexdump example_platform (dlog example_world) 3
    (txt "Hello, world! 0123456789") 24 example_world
  = Ret tt (set_log_out
              [(1%nat, concat (spec_rows 2 (txt "Hello, world! 0123456789")))]
              example_world).
Proof.
  destruct (hexdump_rows example_platform (dlog example_world) 1%nat 3
              (txt "Hello, world! 0123456789") 24 example_world
              ltac:(vm_compute; discriminate) ltac:(vm_compute; discriminate)
              eq_refl ltac:(vm_compute; discriminate)
              ltac:(vm_compute; split; discriminate)
              ltac:(vm_compute; discriminate))
    as (Hrun & Hfit & _).
  rewrite Hfit in Hrun by (vm_compute; reflexivity). exact Hrun.
Defined.

(** C4, as stated, fails in two ways.  A space is printable, so it shows
    as a space in the gutter: the dump of one space has no non-space
    character between the bars.  And a dump that outgrows the buffer is
    cut: with [LOG_MAX_LEN = 2560] the dump of 4097 bytes has 255 whole
    rows, not ceil(4097 / 16) = 257. *)
Lemma hexdump_rows_counterexample :
  (_log_hexdump example_platform (dlog example_world) 3 (txt " ") 1 example_world
     = Ret tt (set_log_out
                 [(1%nat, txt "00000000  20                                                 | |" ++ [NL])]
                 example_world)
   /\ count_nonspace (spec_gutter (txt " ")) = 0%nat
   /\ (1 mod 16 = 1)%nat)
  /\
  (exists bytes,
     _log_hexdump example_platform (dlog example_world) 3 long_data 4097 example_world
       = Ret tt (set_log_out [(1%nat, bytes)] example_world)
     /\ Z.of_nat (length bytes) = 20479
     /\ count_nl bytes = 255%nat
     /\ row_count 4097 = 257%nat).
Proof.
  split.
  - split_and!; [|reflexivity..].
    rewrite (_log_hexdump_emits example_platform (dlog example_world) 1%nat 3 (txt " ") 1
               example_world);
      [reflexivity | vm_compute; discriminate | vm_compute; discriminate | reflexivity
      | vm_compute; discriminate | vm_compute; split; discriminate
      | vm_compute; discriminate].
  - eexists. split.
    + rewrite (_log_hexdump_emits example_platform (dlog example_world) 1%nat 3
                 long_data 4097 example_world);
        [reflexivity | vm_compute; discriminate | vm_compute; discriminate | reflexivity
        | vm_compute; discriminate | vm_compute; split; discriminate
        | vm_compute; discriminate].
    + split_and!; vm_compute; reflexivity.
Qed.

(** C7. The dump of the single byte ['A'] is exactly one row: offset
    [00000000], first hex field [41], the other fifteen hex fields blank
    so that the gutter stays aligned, and the gutter [|A|]. *)
Theorem hexdump_single_A pf dl lg lvl w :
  9 <= LOG_MAX_LEN pf -> 8 * LOG_MAX_LEN pf <= INT_MAX ->
  logger dl = Some lg -> lvl <= level dl ->
  _log_hexdump pf dl lvl (txt "A") 1 w
    = Ret tt (set_log_out
                (log_out w ++
                 [(lg, txt "00000000  41                                                 |A|" ++ [NL])])
                w)
  /\ txt "00000000  41                                                 |A|" ++ [NL]
     = txt "00000000" ++ txt "  " ++ txt "41" ++ txt " "
         ++ concat ((fun j => txt "  " ++ sep (Z.of_nat j)) <$> seq 1 15)
         ++ txt "  |" ++ txt "A" ++ txt "|" ++ [NL].
Proof.
  intros Hpos Hmax Hlg Hle. split; [|reflexivity].
  rewrite (_log_hexdump_emits pf dl lg lvl (txt "A") 1 w);
    [| lia | assumption | assumption | assumption
     | unfold INT_MAX; lia | simpl; lia].
  change (spec_hexdump (take (Z.to_nat 1) (txt "A")))
    with (txt "00000000  41                                                 |A|" ++ [NL]).
  rewrite take_ge; [reflexivity|]. simpl length. lia.
Qed.

Lemma hexdump_single_A_witness :
  _log_hexdump example_platform (dlog example_world) 3 (txt "A") 1 example_world
  = Ret tt (set_log_out
              [(1%nat, txt "00000000  41                                                 |A|" ++ [NL])]
              example_world).
Proof.
  apply (proj1 (hexdump_single_A example_platform (dlog example_world) 1%nat 3
                  example_world
                  ltac:(vm_compute; discriminate) ltac:(vm_compute; discriminate)
                  eq_refl ltac:(vm_compute; discriminate))).
Defined.

(** ** stderr *)

Lemma said_refl w : said w [] w.
Proof.
  exists (errno w). destruct w; simpl.
  unfold set_errno, set_stderr_out; simpl. now rewrite app_nil_r.
Qed.

Lemma log_stderr_said pf w0 ls line w :
  said w0 ls w ->
  exists w', log_stderr pf line w = Ret tt w' /\ said w0 (ls ++ [line]) w'.
Proof.
  intros [e ->]. unfold log_stderr. eexists. split; [reflexivity|].
  eexists. unfold set_errno, set_stderr_out. cbn. rewrite app_assoc. reflexivity.
Qed.

Section TraceProofs.

Variable pf : platform.

Lemma debug_stacktrace_ok skip w :
  0 <= skip < INT_MAX ->
  exists w', debug_stacktrace pf skip w = Ret tt w'
    /\ said w (spec_dump pf (Z.to_nat skip)) w'.
Proof.
  intros Hskip. unfold debug_stacktrace, spec_dump.
  destruct (CC_BACKTRACE pf); [|exists w; split; [reflexivity | apply said_refl]].
  destruct (log_stderr_said pf w [] (txt "printing stracktrace (depth limit: "
                ++ fmt_d BACKTRACE_DEPTH ++ txt ")") w (said_refl w))
    as (w1 & Hs1 & Hsaid1).
  rewrite (bind_step _ _ _ _ _ Hs1).
  change ([] ++ [txt "printing stracktrace (depth limit: "
                   ++ fmt_d BACKTRACE_DEPTH ++ txt ")"])
    with [txt "printing stracktrace (depth limit: 64)"] in Hsaid1.
  destruct (backtrace_symbols_ok pf); cbn [negb].
  2:{ destruct (log_stderr_said pf w _ (txt "Could not print backtrace; no symbols")
                  w1 Hsaid1) as (w2 & Hs2 & Hsaid2).
      exists w2. split; [exact Hs2 | exact Hsaid2]. }
  change (Z.to_nat BACKTRACE_DEPTH) with 64%nat.
  set (stack := take 64 (backtrace_frames pf)).
  set (lines := spec_trace_lines (Z.to_nat skip) stack).
  assert (length stack <= 64)%nat as Hstack by (unfold stack; rewrite length_take; lia).
  assert (length lines = length stack - S (Z.to_nat skip))%nat as Hlines
    by (unfold lines, spec_trace_lines; now rewrite length_imap, length_drop).
  rewrite int_wrap_id by (unfold INT_MIN, INT_MAX in *; lia).
  set (I := fun (p : Z * Z) (w' : world) =>
    exists jn : nat, p = (skip + 1 + Z.of_nat jn, Z.of_nat jn)
      /\ (jn <= length lines)%nat
      /\ said w (txt "printing stracktrace (depth limit: 64)" :: take jn lines) w').
  destruct (while_rule I (fun p => Z.to_nat (Z.of_nat (length stack) - fst p))
              (fun '(i, j) => i <? Z.of_nat (length stack))
              (fun '(i, j) =>
                 do sym <- index stack i;
                 do_ log_stderr pf (txt "[" ++ fmt_d j ++ txt "] " ++ sym);
                 ret (int_wrap (i + 1), int_wrap (j + 1))))
    with (fuel := 64%nat) (s := (skip + 1, 0)) (w := w1)
    as (s' & w' & Hrun & (jn & -> & Hjn & Hsaid) & Hexit).
  - intros [i j] w2 (jn & Heq & Hjn & Hsaid) Hcond.
    injection Heq as -> ->. apply Z.ltb_lt in Hcond.
    assert (jn < length lines)%nat as Hlt by lia.
    destruct (lookup_lt_is_Some_2 (drop (S (Z.to_nat skip)) stack) jn) as [sym Hsym];
      [rewrite length_drop; lia|].
    assert (stack !! Z.to_nat (skip + 1 + Z.of_nat jn) = Some sym) as Hidx.
    { rewrite lookup_drop in Hsym.
      now replace (Z.to_nat (skip + 1 + Z.of_nat jn)) with (S (Z.to_nat skip) + jn)%nat by lia. }
    assert (0 <= skip + 1 + Z.of_nat jn) as Hnn by lia.
    rewrite (bind_step _ _ _ _ _ (index_ok stack _ sym w2 Hnn Hidx)).
    destruct (log_stderr_said pf w _ (txt "[" ++ fmt_d (Z.of_nat jn) ++ txt "] " ++ sym)
                w2 Hsaid) as (w3 & Hs3 & Hsaid3).
    rewrite (bind_step _ _ _ _ _ Hs3).
    eexists _, _. split; [reflexivity|].
    rewrite !int_wrap_id by (unfold INT_MIN, INT_MAX in *; lia).
    split.
    + exists (S jn). split_and!; [f_equal; lia | lia |].
      assert (lines !! jn = Some (txt "[" ++ fmt_d (Z.of_nat jn) ++ txt "] " ++ sym)) as Hl.
      { unfold lines, spec_trace_lines. rewrite list_lookup_imap, Hsym. reflexivity. }
      rewrite (take_S_r _ _ _ Hl). exact Hsaid3.
    + cbn [fst]. lia.
  - exists 0%nat. split_and!; [f_equal; lia | lia | exact Hsaid1].
  - cbn [fst]. lia.
  - rewrite (bind_step _ _ _ _ _ Hrun). exists w'. split; [reflexivity|].
    cbn beta iota in Hexit. apply Z.ltb_ge in Hexit.
    rewrite take_ge in Hsaid by lia. exact Hsaid.
Qed.

End TraceProofs.

(** ** debug_assert *)

Lemma said_trans w ls w1 ls' w2 :
  said w ls w1 -> said w1 ls' w2 -> said w (ls ++ ls') w2.
Proof.
  intros [e1 ->] [e2 ->]. exists e2.
  unfold set_errno, set_stderr_out. cbn. now rewrite app_assoc.
Qed.

(** C8. [debug_assert] writes one line that names the failed condition,
    the file and the line.  With a zero [panic] flag it then returns and
    nothing else is written; with a non-zero flag it goes on to
    [debug_stacktrace(1)], whose lines follow on stderr, and the process
    ends in [abort]. *)
Theorem debug_assert_reports pf cond file line panic w :
  (panic = 0 ->
     exists w', debug_assert pf cond file line panic w = Ret tt w'
       /\ said w [assert_line cond file line] w')
  /\ (panic <> 0 ->
        exists w1 w2,
          log_stderr pf (assert_line cond file line) w = Ret tt w1
          /\ debug_stacktrace pf 1 w1 = Ret tt w2
          /\ debug_assert pf cond file line panic w = Abort w2
          /\ said w (assert_line cond file line :: spec_dump pf 1) w2).
Proof.
  destruct (log_stderr_said pf w [] (assert_line cond file line) w (said_refl w))
    as (w1 & Hs1 & Hsaid1).
  split; intros Hp; unfold debug_assert; fold (assert_line cond file line);
    rewrite (bind_step _ _ _ _ _ Hs1).
  - subst panic. exists w1. split; [reflexivity | exact Hsaid1].
  - destruct (panic =? 0) eqn:E; [apply Z.eqb_eq in E; contradiction|]. cbn [negb].
    destruct (debug_stacktrace_ok pf 1 w1 ltac:(unfold INT_MAX; lia))
      as (w2 & Hs2 & Hsaid2).
    exists w1, w2. split_and!; [exact Hs1 | exact Hs2 | |].
    + now rewrite (bind_step _ _ _ _ _ Hs2).
    + exact (said_trans _ _ _ _ _ Hsaid1 Hsaid2).
Qed.

Lemma debug_assert_reports_witness :
  exists w', debug_assert example_platform (txt "x > 0") (txt "a.c") 12 0 example_world
               = Ret tt w'
    /\ said example_world [assert_line (txt "x > 0") (txt "a.c") 12] w'.
Proof.
  apply (proj1 (debug_assert_reports example_platform (txt "x > 0") (txt "a.c") 12 0
                  example_world)).
  reflexivity.
Defined.

(** ** debug_setup *)

Lemma _log_inactive pf dl file line lvl msg w :
  logger dl = None -> _log pf dl file line lvl msg w = Ret tt w.
Proof. intros H. unfold _log. now rewrite H. Qed.

Lemma _log_hexdump_inactive pf dl lvl obj datalen w :
  logger dl = None -> _log_hexdump pf dl lvl obj datalen w = Ret tt w.
Proof. intros H. unfold _log_hexdump. now rewrite H. Qed.

(** What [debug_setup] leaves behind, by the answers of the platform. *)
Lemma debug_setup_cases pf log_level log_file log_nbuf w :
  exists r w', debug_setup pf log_level log_file log_nbuf w = Ret r w' /\
    match log_create_result pf log_file log_nbuf with
    | None => r = CC_ERROR /\ logger (dlog w') = None
    | Some lg =>
        dlog w' = {| logger := Some lg; level := log_level |} /\
        if (signal_override_result pf SIGSEGV <? 0)
           || (signal_override_result pf SIGTTIN <? 0)
        then r = CC_ERROR /\ debug_init w' = debug_init w
        else r = CC_OK /\ debug_init w' = true
    end.
Proof.
  unfold debug_setup, bind, log_stderr, get_debug_init, get_dlog, log_create,
    clobber, set_logger, set_level, signal_override, put_debug_init, log_destroy, ret.
  destruct w as [e [lg0 lv0] init hs ds lo so]. cbn.
  destruct init; cbn; destruct lg0 as [l0|]; cbn;
    destruct (log_create_result pf log_file log_nbuf) as [lg|]; cbn.
  all: first [ solve [eexists _, _; split; [reflexivity | split; reflexivity]]
             | idtac ].
  all: destruct (signal_override_result pf SIGSEGV <? 0) eqn:E1; cbn;
         rewrite ?E1; cbn.
  all: first [ solve [eexists _, _;
                      split; [reflexivity | split; [reflexivity | split; reflexivity]]]
             | idtac ].
  all: destruct (signal_override_result pf SIGTTIN <? 0) eqn:E2; cbn;
         rewrite ?E2; cbn.
  all: eexists _, _;
         (split; [reflexivity | split; [reflexivity | split; reflexivity]]).
Qed.

(** C2 (as amended). When [debug_setup] fails because the log target
    could not be opened, the logger is left inactive: every later [_log]
    and [_log_hexdump] is a no-op.  When it fails because a signal
    handler could not be installed, the target just opened and the
    requested level stay in the logger, so that later calls at passing
    levels write to that target, and the initialised flag is as it was.
    [debug_setup] fails in no other case. *)
Theorem debug_setup_failure pf log_level log_file log_nbuf w :
  (log_create_result pf log_file log_nbuf = None ->
     exists w', debug_setup pf log_level log_file log_nbuf w = Ret CC_ERROR w'
       /\ logger (dlog w') = None
       /\ (forall file line lvl msg,
             _log pf (dlog w') file line lvl msg w' = Ret tt w')
       /\ (forall lvl obj datalen,
             _log_hexdump pf (dlog w') lvl obj datalen w' = Ret tt w'))
  /\ (forall lg, log_create_result pf log_file log_nbuf = Some lg ->
        signal_override_result pf SIGSEGV < 0
        \/ signal_override_result pf SIGTTIN < 0 ->
        exists w', debug_setup pf log_level log_file log_nbuf w = Ret CC_ERROR w'
          /\ dlog w' = {| logger := Some lg; level := log_level |}
          /\ debug_init w' = debug_init w
          /\ (1 <= LOG_MAX_LEN pf -> 8 * LOG_MAX_LEN pf <= INT_MAX ->
              (forall file line lvl msg, severity lvl -> lvl <= log_level ->
                 emitted pf (dlog w') lg file line lvl msg w')
              /\ (forall lvl obj datalen, lvl <= log_level ->
                    0 <= datalen <= INT_MAX -> datalen <= Z.of_nat (length obj) ->
                    exists bytes,
                      _log_hexdump pf (dlog w') lvl obj datalen w'
                        = Ret tt (set_log_out (log_out w' ++ [(lg, bytes)]) w'))))
  /\ (forall w', debug_setup pf log_level log_file log_nbuf w = Ret CC_ERROR w' ->
        log_create_result pf log_file log_nbuf = None
        \/ signal_override_result pf SIGSEGV < 0
        \/ signal_override_result pf SIGTTIN < 0).
Proof.
  destruct (debug_setup_cases pf log_level log_file log_nbuf w)
    as (r & w' & Hrun & Hcase).
  split_and!.
  - intros Hnone. rewrite Hnone in Hcase. destruct Hcase as [-> Hnull].
    exists w'. split_and!; [exact Hrun | exact Hnull | |].
    + intros. now apply _log_inactive.
    + intros. now apply _log_hexdump_inactive.
  - intros lg Hsome Hfail. rewrite Hsome in Hcase. destruct Hcase as [Hdl Hsig].
    assert ((signal_override_result pf SIGSEGV <? 0)
            || (signal_override_result pf SIGTTIN <? 0) = true) as Hb.
    { apply orb_true_iff. destruct Hfail as [H|H]; [left | right]; now apply Z.ltb_lt. }
    rewrite Hb in Hsig. destruct Hsig as [-> Hinit].
    exists w'. split_and!; [exact Hrun | exact Hdl | exact Hinit |].
    intros Hpos Hmax. rewrite Hdl. split.
    + intros file line lvl msg Hsev Hle.
      apply passes; [unfold INT_MAX in *; lia | reflexivity | exact Hsev | exact Hle].
    + intros lvl obj datalen Hle Hd Hobj. eexists.
      apply _log_hexdump_emits; [assumption | assumption | reflexivity | exact Hle
                                | assumption | assumption].
  - intros w'' Hret. rewrite Hrun in Hret. injection Hret as -> <-.
    destruct (log_create_result pf log_file log_nbuf); [|now left].
    destruct Hcase as [_ Hsig]. right.
    destruct ((signal_override_result pf SIGSEGV <? 0)
              || (signal_override_result pf SIGTTIN <? 0)) eqn:Hb.
    + apply orb_true_iff in Hb. destruct Hb as [H|H]; [left | right]; now apply Z.ltb_lt.
    + destruct Hsig as [Hr _]. discriminate Hr.
Qed.

Lemma debug_setup_failure_witness :
  exists w', debug_setup no_target_platform 4 None 0 fresh_world = Ret CC_ERROR w'
    /\ logger (dlog w') = None
    /\ (forall file line lvl msg,
          _log no_target_platform (dlog w') file line lvl msg w' = Ret tt w')
    /\ (forall lvl obj datalen,
          _log_hexdump no_target_platform (dlog w') lvl obj datalen w' = Ret tt w').
Proof.
  apply (proj1 (debug_setup_failure no_target_platform 4 None 0 fresh_world)).
  reflexivity.
Defined.

(** C2, as stated, fails when a signal handler cannot be installed:
    [debug_setup] returns the failure, yet the target it opened stays in
    the logger and a later [_log] writes to it. *)
Lemma debug_setup_signal_counterexample :
  exists w',
    debug_setup sig_fail_platform 4 None 0 fresh_world = Ret CC_ERROR w'
    /\ dlog w' = {| logger := Some 1%nat; level := 4 |}
    /\ _log sig_fail_platform (dlog w') (txt "a.c") 12 0 (txt "hello") w'
       = Ret tt (set_log_out
                   [(1%nat, txt "[Sun Sep 16 01:03:52 1973][ALWAYS] a.c:12 hello" ++ [NL])]
                   w')
    /\ _log sig_fail_platform (dlog w') (txt "a.c") 12 0 (txt "hello") w' <> Ret tt w'.
Proof.
  eexists. split; [vm_compute; reflexivity|].
  assert (forall A B : Prop, A -> (A -> B) -> A /\ B) as Hand by tauto.
  split; [reflexivity|]. apply Hand.
  - vm_compute. reflexivity.
  - intros -> E.
    apply (f_equal (fun o => match o with Ret _ w' => log_out w' | _ => [] end)) in E.
    discriminate E.
Qed.

(** * Further properties of the module *)

(** ** debug_setup and debug_teardown, end to end *)

(** Everything [debug_setup] leaves behind, by the answers of the
    platform. *)
Lemma debug_setup_effect pf log_level log_file log_nbuf w :
  exists r w', debug_setup pf log_level log_file log_nbuf w = Ret r w'
    /\ log_out w' = log_out w
    /\ destroyed w' = destroyed w ++ held_target w
    /\ match log_create_result pf log_file log_nbuf with
       | None =>
           r = CC_ERROR /\ dlog w' = {| logger := None; level := level (dlog w) |}
           /\ sig_handlers w' = sig_handlers w /\ debug_init w' = debug_init w
       | Some lg =>
           dlog w' = {| logger := Some lg; level := log_level |} /\
           if signal_override_result pf SIGSEGV <? 0 then
             r = CC_ERROR /\ sig_handlers w' = sig_handlers w
             /\ debug_init w' = debug_init w
           else if signal_override_result pf SIGTTIN <? 0 then
             r = CC_ERROR
             /\ sig_handlers w' = (SIGSEGV, _stacktrace) :: sig_handlers w
             /\ debug_init w' = debug_init w
           else
             r = CC_OK
             /\ sig_handlers w'
                = (SIGTTIN, _logrotate) :: (SIGSEGV, _stacktrace) :: sig_handlers w
             /\ debug_init w' = true
       end.
Proof.
  unfold debug_setup, bind, log_stderr, get_debug_init, get_dlog, log_create,
    clobber, set_logger, set_level, signal_override, put_debug_init, log_destroy,
    ret, held_target.
  destruct w as [e [lg0 lv0] init hs ds lo so]. cbn.
  destruct init; cbn; destruct lg0 as [l0|]; cbn;
    destruct (log_create_result pf log_file log_nbuf) as [lg|]; cbn.
  all: rewrite ?app_nil_r.
  all: first [ solve [eexists _, _; split_and!; reflexivity] | idtac ].
  all: destruct (signal_override_result pf SIGSEGV <? 0) eqn:E1; cbn;
         rewrite ?E1; cbn.
  all: first [ solve [eexists _, _; split_and!; reflexivity] | idtac ].
  all: destruct (signal_override_result pf SIGTTIN <? 0) eqn:E2; cbn;
         rewrite ?E2; cbn.
  all: eexists _, _; split_and!; reflexivity.
Qed.

Lemma debug_teardown_effect pf w :
  exists w', debug_teardown pf w = Ret tt w'
    /\ dlog w' = {| logger := None; level := level (dlog w) |}
    /\ debug_init w' = false
    /\ destroyed w' = destroyed w ++ held_target w
    /\ log_out w' = log_out w
    /\ sig_handlers w' = sig_handlers w
    /\ stderr_out w'
       = stderr_out w ++ teardown_line
                          :: (if debug_init w then [] else [never_setup_line]).
Proof.
  unfold debug_teardown, bind, log_stderr, get_debug_init, get_dlog,
    put_debug_init, log_destroy, ret, held_target, teardown_line, never_setup_line.
  destruct w as [e [lg0 lv0] init hs ds lo so]. cbn.
  destruct init; cbn; destruct lg0 as [l0|]; cbn; rewrite ?app_nil_r, <- ?app_assoc;
    eexists; split_and!; reflexivity.
Qed.

Lemma debug_setup_target pf log_level log_file log_nbuf w :
  exists r w', debug_setup pf log_level log_file log_nbuf w = Ret r w'
    /\ destroyed w' = destroyed w ++ held_target w
    /\ logger (dlog w') = log_create_result pf log_file log_nbuf.
Proof.
  destruct (debug_setup_effect pf log_level log_file log_nbuf w)
    as (r & w' & Hrun & Hout & Hds & Hcase).
  exists r, w'. split_and!; [exact Hrun | exact Hds |].
  destruct (log_create_result pf log_file log_nbuf).
  - destruct Hcase as [-> _]. reflexivity.
  - destruct Hcase as (_ & -> & _). reflexivity.
Qed.

(** X1. When the target opens and both handlers install, [debug_setup]
    returns [CC_OK] with the new target and the requested level in the
    logger, the initialised flag set and the two handlers installed; from
    then on [_log] emits to that target at every severity up to the
    requested level and skips the others. *)
Theorem debug_setup_success pf log_level log_file log_nbuf lg w :
  log_create_result pf log_file log_nbuf = Some lg ->
  0 <= signal_override_result pf SIGSEGV ->
  0 <= signal_override_result pf SIGTTIN ->
  exists w', debug_setup pf log_level log_file log_nbuf w = Ret CC_OK w'
    /\ dlog w' = {| logger := Some lg; level := log_level |}
    /\ debug_init w' = true
    /\ sig_handlers w'
       = (SIGTTIN, _logrotate) :: (SIGSEGV, _stacktrace) :: sig_handlers w
    /\ (1 <= LOG_MAX_LEN pf <= INT_MAX ->
        forall file line lvl msg, severity lvl ->
          (lvl <= log_level -> emitted pf (dlog w') lg file line lvl msg w')
          /\ (log_level < lvl -> skipped pf (dlog w') file line lvl msg w')).
Proof.
  intros Hlg H1 H2.
  destruct (debug_setup_effect pf log_level log_file log_nbuf w)
    as (r & w' & Hrun & _ & _ & Hcase).
  rewrite Hlg in Hcase. destruct Hcase as [Hdl Hsig].
  destruct (Z.ltb_spec (signal_override_result pf SIGSEGV) 0); [lia|].
  destruct (Z.ltb_spec (signal_override_result pf SIGTTIN) 0); [lia|].
  destruct Hsig as (-> & Hhs & Hinit).
  exists w'. split_and!; [exact Hrun | exact Hdl | exact Hinit | exact Hhs |].
  intros Hsize file line lvl msg Hsev. rewrite Hdl. split; intros Hl.
  - apply passes; [exact Hsize | reflexivity | exact Hsev | exact Hl].
  - apply (filtered_out pf _ lg); [reflexivity | exact Hl].
Qed.

Lemma debug_setup_success_witness :
  exists w', debug_setup example_platform 4 None 0 fresh_world = Ret CC_OK w'
    /\ dlog w' = {| logger := Some 1%nat; level := 4 |}
    /\ debug_init w' = true.
Proof.
  destruct (debug_setup_success example_platform 4 None 0 1%nat fresh_world
              eq_refl ltac:(vm_compute; discriminate) ltac:(vm_compute; discriminate))
    as (w' & Hrun & Hdl & Hinit & _).
  exists w'. split_and!; assumption.
Defined.


(** X3. A failing [debug_setup] installs no handler when the target
    cannot be opened or the SIGSEGV handler is rejected (SIGTTIN is then
    not attempted), and leaves the SIGSEGV handler installed when only
    the SIGTTIN handler is rejected. *)
Theorem debug_setup_handlers pf log_level log_file log_nbuf w r w' :
  debug_setup pf log_level log_file log_nbuf w = Ret r w' ->
  (log_create_result pf log_file log_nbuf = None
   \/ signal_override_result pf SIGSEGV < 0 ->
   r = CC_ERROR /\ sig_handlers w' = sig_handlers w)
  /\ (log_create_result pf log_file log_nbuf <> None ->
      0 <= signal_override_result pf SIGSEGV ->
      signal_override_result pf SIGTTIN < 0 ->
      r = CC_ERROR
      /\ sig_handlers w' = (SIGSEGV, _stacktrace) :: sig_handlers w).
Proof.
  intros Hret.
  destruct (debug_setup_effect pf log_level log_file log_nbuf w)
    as (r0 & w0 & Hrun & _ & _ & Hcase).
  rewrite Hrun in Hret. injection Hret as -> ->.
  destruct (log_create_result pf log_file log_nbuf) as [lg|].
  - destruct Hcase as [_ Hsig]. split.
    + intros [Hn | Hneg]; [discriminate Hn|].
      destruct (Z.ltb_spec (signal_override_result pf SIGSEGV) 0); [|lia].
      destruct Hsig as (-> & -> & _). auto.
    + intros _ H1 H2.
      destruct (Z.ltb_spec (signal_override_result pf SIGSEGV) 0); [lia|].
      destruct (Z.ltb_spec (signal_override_result pf SIGTTIN) 0); [|lia].
      destruct Hsig as (-> & -> & _). auto.
  - destruct Hcase as (-> & _ & -> & _). split; [auto | intros Hne; contradiction].
Qed.

Lemma debug_setup_handlers_witness :
  exists w',
    debug_setup rotate_fail_platform 4 None 0 fresh_world = Ret CC_ERROR w'
    /\ sig_handlers w' = [(SIGSEGV, _stacktrace)].
Proof.
  destruct (debug_setup_effect rotate_fail_platform 4 None 0 fresh_world)
    as (r & w' & Hrun & _).
  destruct (proj2 (debug_setup_handlers rotate_fail_platform 4 None 0 fresh_world
                     r w' Hrun)
              ltac:(discriminate) ltac:(vm_compute; discriminate)
              ltac:(vm_compute; reflexivity)) as [-> Hhs].
  exists w'. split; assumption.
Defined.

(** X4. [debug_teardown] always returns; it gives the target the logger
    held, if any, to [log_destroy] exactly once, clears the logger and
    the initialised flag, keeps the level and the installed signal
    handlers, and warns on stderr exactly when the module was not
    initialised.  Afterwards [_log] and [_log_hexdump] are no-ops. *)
Theorem debug_teardown_resets pf w :
  exists w', debug_teardown pf w = Ret tt w'
    /\ dlog w' = {| logger := None; level := level (dlog w) |}
    /\ debug_init w' = false
    /\ destroyed w' = destroyed w ++ held_target w
    /\ sig_handlers w' = sig_handlers w
    /\ log_out w' = log_out w
    /\ stderr_out w'
       = stderr_out w ++ teardown_line
                          :: (if debug_init w then [] else [never_setup_line])
    /\ (forall file line lvl msg,
          _log pf (dlog w') file line lvl msg w' = Ret tt w')
    /\ (forall lvl obj datalen,
          _log_hexdump pf (dlog w') lvl obj datalen w' = Ret tt w').
Proof.
  destruct (debug_teardown_effect pf w)
    as (w' & Hrun & Hdl & Hinit & Hds & Hout & Hhs & Herr).
  exists w'. split_and!; try assumption.
  - intros. apply _log_inactive. now rewrite Hdl.
  - intros. apply _log_hexdump_inactive. now rewrite Hdl.
Qed.

(** X5. A second [debug_teardown] in a row does not fault and releases
    nothing: it leaves the logger, the flag and the released targets as
    the first one left them and only adds its two lines, the second being
    the "was never setup" warning, to stderr. *)
Theorem debug_teardown_twice pf w :
  exists w1 w2,
    debug_teardown pf w = Ret tt w1 /\ debug_teardown pf w1 = Ret tt w2
    /\ dlog w2 = dlog w1 /\ debug_init w2 = debug_init w1
    /\ destroyed w2 = destroyed w1 /\ log_out w2 = log_out w1
    /\ stderr_out w2 = stderr_out w1 ++ [teardown_line; never_setup_line].
Proof.
  destruct (debug_teardown_effect pf w)
    as (w1 & Hrun1 & Hdl1 & Hinit1 & _).
  destruct (debug_teardown_effect pf w1)
    as (w2 & Hrun2 & Hdl2 & Hinit2 & Hds2 & Hout2 & _ & Herr2).
  exists w1, w2. split_and!; try assumption.
  - rewrite Hdl2, Hdl1. reflexivity.
  - congruence.
  - rewrite Hds2. unfold held_target. rewrite Hdl1. cbn. apply app_nil_r.
  - rewrite Herr2, Hinit1. reflexivity.
Qed.

(** X6. Whatever [debug_setup] returned, a following [debug_teardown]
    releases the target that setup opened, if it opened one: after the
    pair, the targets released are the one held at the start and the one
    [log_create] returned, in this order, and the logger is inactive. *)
Theorem debug_setup_teardown pf log_level log_file log_nbuf w :
  exists r w1 w2,
    debug_setup pf log_level log_file log_nbuf w = Ret r w1
    /\ debug_teardown pf w1 = Ret tt w2
    /\ destroyed w2
       = destroyed w ++ held_target w
           ++ match log_create_result pf log_file log_nbuf with
              | Some lg => [lg]
              | None => []
              end
    /\ logger (dlog w2) = None
    /\ debug_init w2 = false.
Proof.
  destruct (debug_setup_target pf log_level log_file log_nbuf w)
    as (r & w1 & Hrun1 & Hds1 & Hlg1).
  destruct (debug_teardown_effect pf w1)
    as (w2 & Hrun2 & Hdl2 & Hinit2 & Hds2 & _).
  exists r, w1, w2. split_and!; try assumption.
  - rewrite Hds2, Hds1, <- app_assoc. f_equal. f_equal.
    unfold held_target. rewrite Hlg1. reflexivity.
  - now rewrite Hdl2.
Qed.

(** ** The stores of a dump stay in its buffer *)





Section SafetyProofs.

Variable pf : platform.
Variable obj : text.
Variable size : Z.
Hypothesis Hsize : 1 <= size <= INT_MAX.
Variable w0 : world.







End SafetyProofs.




(** ** The stack trace *)

Lemma said_fields w ls w' :
  said w ls w' ->
  stderr_out w' = stderr_out w ++ ls /\ log_out w' = log_out w
  /\ dlog w' = dlog w /\ debug_init w' = debug_init w
  /\ sig_handlers w' = sig_handlers w /\ destroyed w' = destroyed w.
Proof. intros [e ->]. split_and!; reflexivity. Qed.

(** X8. [debug_stacktrace] returns and touches only stderr and errno.
    Built with backtrace support and with symbols at hand, it writes the
    header and then one line [[j] symbol] per captured frame after the
    first [skip + 1], numbered from 0: at most 64 frames are captured, so
    at most 63 are shown.  Without symbols it writes the header and one
    notice; built without backtrace support it writes nothing. *)
Theorem debug_stacktrace_lines pf skip w :
  0 <= skip < INT_MAX ->
  exists w', debug_stacktrace pf skip w = Ret tt w'
    /\ log_out w' = log_out w /\ dlog w' = dlog w
    /\ debug_init w' = debug_init w /\ sig_handlers w' = sig_handlers w
    /\ (CC_BACKTRACE pf = false -> stderr_out w' = stderr_out w)
    /\ (CC_BACKTRACE pf = true -> backtrace_symbols_ok pf = false ->
        stderr_out w'
        = stderr_out w
            ++ [trace_header; txt "Could not print backtrace; no symbols"])
    /\ (CC_BACKTRACE pf = true -> backtrace_symbols_ok pf = true ->
        exists lines,
          stderr_out w' = stderr_out w ++ trace_header :: lines
          /\ length lines
             = (Nat.min 64 (length (backtrace_frames pf)) - S (Z.to_nat skip))%nat
          /\ (length lines <= 63)%nat
          /\ forall (j : nat) sym,
               (S (Z.to_nat skip) + j < 64)%nat ->
               backtrace_frames pf !! (S (Z.to_nat skip) + j)%nat = Some sym ->
               lines !! j = Some (txt "[" ++ fmt_d (Z.of_nat j) ++ txt "] " ++ sym)).
Proof.
  intros Hskip.
  destruct (debug_stacktrace_ok pf skip w Hskip) as (w' & Hrun & Hsaid).
  apply said_fields in Hsaid as (Herr & Hout & Hdl & Hinit & Hhs & _).
  exists w'. split_and!; try assumption.
  - intros Hb. rewrite Herr. unfold spec_dump. rewrite Hb. apply app_nil_r.
  - intros Hb Hs. rewrite Herr. unfold spec_dump. now rewrite Hb, Hs.
  - intros Hb Hs. unfold spec_dump in Herr. rewrite Hb, Hs in Herr.
    eexists. split; [exact Herr|].
    unfold spec_trace_lines. rewrite length_imap, length_drop, length_take.
    split_and!; [lia | lia |].
    intros j sym Hj Hsym.
    rewrite list_lookup_imap, lookup_drop, lookup_take.
    destruct (decide (S (Z.to_nat skip) + j < 64)%nat); [|lia].
    now rewrite Hsym.
Qed.

Lemma debug_stacktrace_lines_witness :
  exists w', debug_stacktrace example_platform 1 example_world = Ret tt w'
    /\ log_out w' = log_out example_world.
Proof.
  destruct (debug_stacktrace_lines example_platform 1 example_world
              ltac:(unfold INT_MAX; lia)) as (w' & Hrun & Hout & _).
  exists w'. split; assumption.
Defined.

(** ** Printable dumps *)

Lemma hex_digit_printable d : isprint (hex_digit d) = true.
Proof.
  unfold hex_digit. generalize (Z.to_nat d). intros n.
  do 17 (destruct n as [|n]; [reflexivity|]). reflexivity.
Qed.

Lemma hex_digits_printable w n : Forall printable_or_nl (hex_digits w n).
Proof.
  revert n. induction w as [|w IH]; intros n; [constructor|].
  cbn [hex_digits]. apply Forall_app. split; [apply IH|].
  constructor; [left; apply hex_digit_printable | constructor].
Qed.

Lemma sep_printable j : Forall printable_or_nl (sep j).
Proof. unfold sep. destruct (j =? 7); repeat constructor. Qed.

Lemma spec_field_printable chunk j : Forall printable_or_nl (spec_field chunk j).
Proof.
  unfold spec_field. apply Forall_app. split; [|apply sep_printable].
  destruct (chunk !! j); [apply hex_digits_printable | repeat constructor].
Qed.

Lemma spec_gutter_printable chunk : Forall printable_or_nl (spec_gutter chunk).
Proof.
  unfold spec_gutter. apply Forall_fmap, Forall_forall. intros c _. simpl.
  left. destruct (isprint c) eqn:E; [exact E | reflexivity].
Qed.

Lemma spec_row_printable k chunk : Forall printable_or_nl (spec_row k chunk).
Proof.
  unfold spec_row.
  apply Forall_app; split; [apply hex_digits_printable|].
  apply Forall_app; split; [repeat constructor|].
  apply Forall_app; split.
  { apply Forall_concat, Forall_fmap, Forall_forall. intros j _.
    apply spec_field_printable. }
  apply Forall_app; split; [repeat constructor|].
  apply Forall_app; split; [apply spec_gutter_printable|].
  apply Forall_app; split; [repeat constructor|].
  constructor; [now right | constructor].
Qed.

Lemma spec_rows_printable K data : Forall printable_or_nl (concat (spec_rows K data)).
Proof.
  apply Forall_concat. unfold spec_rows. apply Forall_forall. intros row Hin.
  apply list_elem_of_lookup in Hin as [k Hk].
  rewrite list_lookup_imap in Hk.
  destruct (chunks K data !! k) as [chunk|]; [|discriminate].
  injection Hk as <-. apply spec_row_printable.
Qed.

(** X9. What [_log_hexdump] hands to the target is printable text
    whatever bytes are dumped: every byte of the output is a printable
    ASCII character or the newline that ends a row. *)
Theorem hexdump_printable pf dl lg lvl obj datalen w :
  1 <= LOG_MAX_LEN pf -> 8 * LOG_MAX_LEN pf <= INT_MAX ->
  logger dl = Some lg -> lvl <= level dl ->
  0 <= datalen <= INT_MAX -> datalen <= Z.of_nat (length obj) ->
  exists bytes,
    _log_hexdump pf dl lvl obj datalen w
      = Ret tt (set_log_out (log_out w ++ [(lg, bytes)]) w)
    /\ Forall printable_or_nl bytes.
Proof.
  intros Hpos Hmax Hlg Hle Hd Hobj. eexists. split.
  - apply _log_hexdump_emits; assumption.
  - apply Forall_take. apply spec_rows_printable.
Qed.

Lemma hexdump_printable_witness :
  exists bytes,
    _log_hexdump example_platform (dlog example_world) 3
      ["000"%char; "A"%char; "255"%char] 3 example_world
      = Ret tt (set_log_out (log_out example_world ++ [(1%nat, bytes)]) example_world)
    /\ Forall printable_or_nl bytes.
Proof.
  apply (hexdump_printable example_platform (dlog example_world) 1%nat 3
           ["000"%char; "A"%char; "255"%char] 3 example_world);
    first [reflexivity | vm_compute; discriminate | vm_compute; split; discriminate].
Defined.

(** ** The size of a dump *)

Lemma length_concat_spec_rows k data :
  length (concat (spec_rows k data))
  = (64 * k + Nat.min (16 * k) (length data))%nat.
Proof.
  induction k as [|k IH]; [reflexivity|].
  rewrite spec_rows_S, concat_app, length_app, IH. cbn [concat].
  rewrite app_nil_r, length_spec_row, length_take, length_drop. lia.
Qed.

(** X10. The one write of [_log_hexdump] has
    [min (8 * LOG_MAX_LEN - 1, 64 * ceil(n / 16) + n)] bytes for a dump
    of [n] bytes: a row costs 64 bytes besides one gutter character per
    input byte (80 for a full row), and the output is cut one byte short
    of the buffer. *)
Theorem hexdump_length pf dl lg lvl obj datalen w :
  1 <= LOG_MAX_LEN pf -> 8 * LOG_MAX_LEN pf <= INT_MAX ->
  logger dl = Some lg -> lvl <= level dl ->
  0 <= datalen <= INT_MAX -> datalen <= Z.of_nat (length obj) ->
  exists bytes,
    _log_hexdump pf dl lvl obj datalen w
      = Ret tt (set_log_out (log_out w ++ [(lg, bytes)]) w)
    /\ Z.of_nat (length bytes)
       = Z.min (8 * LOG_MAX_LEN pf - 1)
               (64 * Z.of_nat (row_count (Z.to_nat datalen)) + datalen).
Proof.
  intros Hpos Hmax Hlg Hle Hd Hobj. eexists. split.
  - apply _log_hexdump_emits; assumption.
  - unfold spec_hexdump. rewrite length_take, length_concat_spec_rows, length_take.
    replace (Nat.min (Z.to_nat datalen) (length obj)) with (Z.to_nat datalen) by lia.
    pose proof (row_count_spec (Z.to_nat datalen)). lia.
Qed.

Lemma hexdump_length_witness :
  exists bytes,
    _log_hexdump example_platform (dlog example_world) 3 long_data 4097 example_world
      = Ret tt (set_log_out (log_out example_world ++ [(1%nat, bytes)]) example_world)
    /\ Z.of_nat (length bytes) = 20479.
Proof.
  apply (hexdump_length example_platform (dlog example_world) 1%nat 3 long_data 4097
           example_world);
    first [reflexivity | vm_compute; discriminate | vm_compute; split; discriminate].
Defined.

(** ** Level and stamp of a log line *)



Lemma stamp_all_but_last timestr :
  strlen timestr <= INT_MAX ->
  fmt_prec_s (int_wrap (strlen timestr - 1)) timestr
  = take (length timestr - 1) timestr.
Proof.
  unfold strlen, fmt_prec_s. intros H.
  rewrite int_wrap_id by (unfold INT_MIN, INT_MAX in *; lia).
  destruct (Z.ltb_spec (Z.of_nat (length timestr) - 1) 0) as [Hneg|Hpos].
  - destruct timestr; [reflexivity | simpl in Hneg; lia].
  - f_equal. lia.
Qed.

(** X12. The stamp between the first brackets of a log line is the
    [asctime] text without its last character, whatever that character
    is; an empty [asctime] text gives an empty stamp. *)
Theorem log_stamp_drops_last pf dl lg file line lvl msg name w :
  1 <= LOG_MAX_LEN pf <= INT_MAX ->
  logger dl = Some lg -> lvl <= level dl ->
  0 <= lvl -> level_str !! Z.to_nat lvl = Some name ->
  strlen (asctime_localtime pf (time_now pf)) <= INT_MAX ->
  let timestr := asctime_localtime pf (time_now pf) in
  _log pf dl file line lvl msg w
    = Ret tt (set_log_out
                (log_out w ++
                 [(lg, take (Z.to_nat (LOG_MAX_LEN pf - 1))
                         (spec_line (take (length timestr - 1) timestr)
                            name file line msg) ++ [NL])])
                w).
Proof.
  intros Hsize Hlg Hle H0 Hname Hlen timestr.
  rewrite (_log_emits pf dl lg file line lvl msg name w) by assumption.
  unfold log_header, spec_line. fold timestr.
  rewrite stamp_all_but_last by exact Hlen.
  now rewrite <- !app_assoc.
Qed.

Lemma log_stamp_drops_last_witness :
  _log odd_clock_platform (dlog example_world) (txt "a.c") 12 3 (txt "hello")
    example_world
  = Ret tt (set_log_out [(1%nat, txt "[noo][WARN] a.c:12 hello" ++ [NL])]
              example_world).
Proof.
  apply (log_stamp_drops_last odd_clock_platform (dlog example_world) 1%nat
           (txt "a.c") 12 3 (txt "hello") (txt "WARN") example_world);
    first [reflexivity | vm_compute; discriminate | vm_compute; split; discriminate].
Defined.
